(** * The SQUID school notebook "Getting started with Qiskit Chemistry"

    A shallow embedding of the code cells of
    [chemistry/.ipynb_checkpoints/SQUIDnotebookIgor-checkpoint.ipynb].

    The notebook is a straight-line Python script, split into cells, that
    only assembles calls into the Qiskit framework, NumPy and Matplotlib.
    The embedding therefore has three layers:

    - the framework the notebook is written against ([Carrier] and
      [Framework]): opaque object types and the calls the notebook makes,
      each of which may raise;
    - the interpreter state of a Python session ([state]): the global
      namespace, a dictionary from names to values, and the trace of what
      the session did to the outside world (console, figures, framework
      calls);
    - the cells themselves, written in an error-and-state monad [Py], one
      definition per code cell, in the order of the notebook. *)

From Stdlib Require Import ZArith Lia List.
From stdpp Require Import base strings gmap list.

Local Open Scope Z_scope.
Local Open Scope string_scope.

(** ** Python exceptions and outcomes *)

Inductive pyerr : Type :=
| NameError (name : string)
| TypeError (name : string)
| IndexError (what : string)
| ValueError (what : string)
| FrameworkError (call : string).

Inductive outcome (A : Type) : Type :=
| Returned (a : A)
| Raised (e : pyerr).
Arguments Returned {A} a.
Arguments Raised {A} e.

Definition is_raised {A} (r : outcome A) : bool :=
  match r with Raised _ => true | Returned _ => false end.

(** ** The objects of the framework *)

(** The types the notebook never looks into. [scalar] is a float64. *)
Class Carrier : Type := {
  scalar : Type;
  tensor : Type;
  qubit_op : Type;
  circuit : Type;
  device : Type;
  properties_t : Type;
  coupling_map_t : Type;
  noise_model_t : Type;
  layout_t : Type;
  exec_result : Type;
}.

Section Objects.
Context {C : Carrier}.

(** complex128, as (real part, imaginary part) *)
Definition complex : Type := scalar * scalar.

(** [PySCFDriver(atom=..., unit=..., charge=..., spin=..., basis=...)] *)
Record PySCFDriver : Type := {
  atom : string;
  unit_ : string;
  charge : Z;
  spin : Z;
  basis : string;
}.

(** The attributes of the [molecule] object that the notebook reads. *)
Record QMolecule : Type := {
  nuclear_repulsion_energy : scalar;
  num_alpha : Z;
  num_beta : Z;
  num_orbitals : Z;
  hf_energy : scalar;
  one_body_integrals : tensor;
  two_body_integrals : tensor;
}.

(** [FermionicOperator(h1=h1, h2=h2)] *)
Record FermionicOperator : Type := { h1 : tensor; h2 : tensor }.

(** [COBYLA(maxiter=...)], and the two alternatives left in comments *)
Inductive optimizer_t : Type :=
| COBYLA (maxiter : Z)
| SPSA (maxiter : Z)
| P_BFGS (maxiter : Z).

(** [HartreeFock(num_qubits, num_orbitals, num_particles, qubit_mapping,
    two_qubit_reduction)] *)
Record HartreeFock : Type := {
  hf_num_qubits : Z;
  hf_num_orbitals : Z;
  hf_num_particles : Z;
  hf_qubit_mapping : string;
  hf_two_qubit_reduction : bool;
}.

(** [UCCSD(num_qubits, depth=, num_orbitals=, num_particles=,
    active_occupied=None, active_unoccupied=None, initial_state=,
    qubit_mapping=, two_qubit_reduction=, num_time_slices=)] *)
Record UCCSD : Type := {
  vf_num_qubits : Z;
  vf_depth : Z;
  vf_num_orbitals : Z;
  vf_num_particles : Z;
  vf_initial_state : HartreeFock;
  vf_qubit_mapping : string;
  vf_two_qubit_reduction : bool;
  vf_num_time_slices : Z;
}.

Inductive backend_t : Type :=
| AerBackend (name : string)
| IBMQBackend (d : device).

(** [QuantumInstance(backend, shots=, basis_gates=, coupling_map=,
    initial_layout=, noise_model=)]; the notebook passes either the backend
    alone or all six. *)
Record QuantumInstance : Type := {
  qi_backend : backend_t;
  qi_shots : option Z;
  qi_basis_gates : option (list string);
  qi_coupling_map : option coupling_map_t;
  qi_initial_layout : option layout_t;
  qi_noise_model : option noise_model_t;
}.

(** [VQE(qubitOp, var_form, optimizer)] *)
Record VQE : Type := {
  vqe_operator : qubit_op;
  vqe_var_form : UCCSD;
  vqe_optimizer : optimizer_t;
}.

(** The two entries of the dictionary returned by [vqe.run] that the
    notebook reads. *)
Record results_t : Type := {
  eigvals : list scalar;
  opt_params : list scalar;
}.

(** A two-dimensional float64 [ndarray] of shape [(length rows, ncols)]. *)
Record ndarray2 : Type := {
  ncols : nat;
  rows : list (list scalar);
}.

(** ** Values of the global namespace *)

Inductive value : Type :=
| VImport (path : string)
| VBool (b : bool)
| VInt (z : Z)
| VStr (s : string)
| VFloat (x : scalar)
| VTensor (t : tensor)
| VDriver (d : PySCFDriver)
| VMolecule (m : QMolecule)
| VFermionic (f : FermionicOperator)
| VOperator (q : qubit_op)
| VOptimizer (o : optimizer_t)
| VHartreeFock (h : HartreeFock)
| VUCCSD (u : UCCSD)
| VBackend (b : backend_t)
| VProperties (p : properties_t)
| VCoupling (c : coupling_map_t)
| VNoiseModel (n : noise_model_t)
| VStrings (l : list string)
| VLayout (l : layout_t)
| VQuantumInstance (qi : QuantumInstance)
| VVQE (v : VQE)
| VResults (r : results_t)
| VCircuit (c : circuit)
| VCircuits (cs : list circuit)
| VRegister (size : Z) (name : string)
| VExecResult (r : exec_result)
| VArray2 (a : ndarray2)
| VArray1 (a : list scalar).

(** ** What a session does to the outside world *)

(** Calls into the framework, with the arguments the claims are about. *)
Inductive call : Type :=
| CDriverRun
| CMapping (map_type : string)
| CTwoQubitReduced (num_particles : Z)
| CChop
| CAerGetBackend (name : string)
| CSaveAccount (token : string) (overwrite : bool)
| CLoadAccounts
| CBackends
| CLeastBusy
| CProperties
| CConfiguration
| CBasicDeviceNoiseModel
| CVqeRun
| CConstructCircuit
| CHFConstructCircuit
| CEvolve (evo_time : Z)
| CExecute
| CGetStatevector.

Inductive event : Type :=
| Print (text : string) (arg : option value)
| Display (what : string)
| Figure (number : Z) (series : list (list scalar))
| Call (c : call).

Record state : Type := State {
  globals : gmap string value;
  trace : list event;
}.

Definition initial : state := State ∅ [].

End Objects.

(** ** The calls the notebook makes into the framework

    Every call may raise.  [chop] works in place in Python; here it returns
    the operator as it is after the call.  [float_lit m e] is the float64
    literal [m * 10^e]. *)
Class Framework (C : Carrier) : Type := {
  fzero : scalar;
  fadd : scalar → scalar → scalar;
  fsub : scalar → scalar → scalar;
  fabs : scalar → scalar;
  float_lit : Z → Z → scalar;
  float_of_int : Z → scalar;
  num_qubits : qubit_op → Z;
  basis_gates_of : noise_model_t → list string;
  driver_run : PySCFDriver → outcome QMolecule;
  mapping : FermionicOperator → string → scalar → outcome qubit_op;
  two_qubit_reduced_operator : qubit_op → Z → outcome qubit_op;
  chop : qubit_op → scalar → outcome qubit_op;
  aer_get_backend : string → outcome backend_t;
  save_account : string → bool → outcome unit;
  load_accounts : outcome unit;
  backends : outcome (list device);
  least_busy : list device → outcome device;
  properties : device → outcome properties_t;
  configuration_coupling_map : device → outcome coupling_map_t;
  basic_device_noise_model : properties_t → outcome noise_model_t;
  vqe_run : VQE → QuantumInstance → outcome results_t;
  vqe_construct_circuit : VQE → bool → list scalar → outcome (list circuit);
  hf_construct_circuit : HartreeFock → string → outcome circuit;
  evolve : qubit_op → circuit → Z → string → Z → string → outcome circuit;
  execute : QuantumInstance → circuit → outcome exec_result;
  get_statevector : exec_result → circuit → outcome (list complex);
}.

(** ** The monad of a Python session

    A statement takes the session state to an outcome and a new state.  When
    a statement raises, what was bound and done before it stays. *)
Section Session.
Context {C : Carrier}.

Definition Py (A : Type) : Type := state → outcome A * state.

#[export] Instance Py_ret : MRet Py := λ A a st, (Returned a, st).

#[export] Instance Py_bind : MBind Py := λ A B f m st,
  match m st with
  | (Returned a, st') => f a st'
  | (Raised e, st') => (Raised e, st')
  end.

Definition raise {A} (e : pyerr) : Py A := λ st, (Raised e, st).

(** Reading a global name. *)
Definition name (x : string) : Py value := λ st,
  match globals st !! x with
  | Some v => (Returned v, st)
  | None => (Raised (NameError x), st)
  end.

(** [x = v] *)
Definition assign (x : string) (v : value) : Py unit := λ st,
  (Returned tt, State (<[x := v]> (globals st)) (trace st)).

Definition emit (ev : event) : Py unit := λ st,
  (Returned tt, State (globals st) (trace st ++ [ev])).

(** A call into the framework: recorded, then its outcome. *)
Definition invoke {A} (c : call) (r : outcome A) : Py A := λ st,
  (r, State (globals st) (trace st ++ [Call c])).

(** Reading a name whose value must have a given shape. *)
Definition expect {A} (x : string) (proj : value → option A) : Py A :=
  v ← name x;
  match proj v with
  | Some a => mret a
  | None => raise (TypeError x)
  end.

Definition to_bool (v : value) : option bool :=
  match v with VBool b => Some b | _ => None end.
Definition to_int (v : value) : option Z :=
  match v with VInt z => Some z | _ => None end.
Definition to_str (v : value) : option string :=
  match v with VStr s => Some s | _ => None end.
Definition to_float (v : value) : option scalar :=
  match v with VFloat x => Some x | _ => None end.
Definition to_tensor (v : value) : option tensor :=
  match v with VTensor t => Some t | _ => None end.
Definition to_driver (v : value) : option PySCFDriver :=
  match v with VDriver d => Some d | _ => None end.
Definition to_molecule (v : value) : option QMolecule :=
  match v with VMolecule m => Some m | _ => None end.
Definition to_fermionic (v : value) : option FermionicOperator :=
  match v with VFermionic f => Some f | _ => None end.
Definition to_operator (v : value) : option qubit_op :=
  match v with VOperator q => Some q | _ => None end.
Definition to_optimizer (v : value) : option optimizer_t :=
  match v with VOptimizer o => Some o | _ => None end.
Definition to_hartree_fock (v : value) : option HartreeFock :=
  match v with VHartreeFock h => Some h | _ => None end.
Definition to_uccsd (v : value) : option UCCSD :=
  match v with VUCCSD u => Some u | _ => None end.
Definition to_backend (v : value) : option backend_t :=
  match v with VBackend b => Some b | _ => None end.
Definition to_device (v : value) : option device :=
  match v with VBackend (IBMQBackend d) => Some d | _ => None end.
Definition to_properties (v : value) : option properties_t :=
  match v with VProperties p => Some p | _ => None end.
Definition to_coupling (v : value) : option coupling_map_t :=
  match v with VCoupling c => Some c | _ => None end.
Definition to_noise_model (v : value) : option noise_model_t :=
  match v with VNoiseModel n => Some n | _ => None end.
Definition to_strings (v : value) : option (list string) :=
  match v with VStrings l => Some l | _ => None end.
Definition to_layout (v : value) : option layout_t :=
  match v with VLayout l => Some l | _ => None end.
Definition to_quantum_instance (v : value) : option QuantumInstance :=
  match v with VQuantumInstance qi => Some qi | _ => None end.
Definition to_vqe (v : value) : option VQE :=
  match v with VVQE a => Some a | _ => None end.
Definition to_results (v : value) : option results_t :=
  match v with VResults r => Some r | _ => None end.
Definition to_exec_result (v : value) : option exec_result :=
  match v with VExecResult r => Some r | _ => None end.
Definition to_circuit (v : value) : option circuit :=
  match v with VCircuit c => Some c | _ => None end.
Definition to_circuits (v : value) : option (list circuit) :=
  match v with VCircuits cs => Some cs | _ => None end.
Definition to_array2 (v : value) : option ndarray2 :=
  match v with VArray2 a => Some a | _ => None end.
Definition to_array1 (v : value) : option (list scalar) :=
  match v with VArray1 a => Some a | _ => None end.

(** [import ...] and [from ... import a, b, c] bind names. *)
Fixpoint import_from (path : string) (names : list string) : Py unit :=
  match names with
  | [] => mret tt
  | x :: rest => assign x (VImport (path ++ "." ++ x));; import_from path rest
  end.

(** [for i in range(n): body i] *)
Fixpoint for_range_from (start : Z) (count : nat) (body : Z → Py unit) : Py unit :=
  match count with
  | O => mret tt
  | S k => body start;; for_range_from (start + 1) k body
  end.

Definition for_range (n : Z) (body : Z → Py unit) : Py unit :=
  for_range_from 0 (Z.to_nat n) body.

(** [v == s] for a string literal [s] *)
Definition eq_str (v : value) (s : string) : bool :=
  match v with VStr s' => String.eqb s' s | _ => false end.

(** [xs[0]] *)
Definition first {A} (what : string) (xs : list A) : Py A :=
  match xs with
  | x :: _ => mret x
  | [] => raise (IndexError what)
  end.

Definition lift {A} (r : outcome A) : Py A := λ st, (r, st).

(** *** Reasoning about statements *)

(** [wp m Q st]: running [m] from [st] ends in an outcome and a state that
    satisfy [Q]. *)
Definition wp {A} (m : Py A) (Q : outcome A → state → Prop) (st : state) : Prop :=
  Q (m st).1 (m st).2.

(** [preserves I m]: whatever [m] does, and whether it returns or raises, it
    takes states in [I] to states in [I]. *)
Definition preserves {A} (I : state → Prop) (m : Py A) : Prop :=
  ∀ st, I st → I (m st).2.

(** The name [x] is bound to [o] (or unbound, for [None]). *)
Definition bound (x : string) (o : option value) : state → Prop :=
  λ st, globals st !! x = o.

(** Since the trace was [tr], only events in [φ] were added. *)
Definition added (φ : event → bool) (tr : list event) : state → Prop :=
  λ st, ∃ l : list event, trace st = (tr ++ l)%list ∧ forallb φ l = true.

(** An invariant that no assignment to [x], respectively no event [ev],
    breaks. *)
Definition stable_assign (I : state → Prop) (x : string) : Prop :=
  ∀ v g tr, I (State g tr) → I (State (<[x := v]> g) tr).

Definition stable_emit (I : state → Prop) (ev : event) : Prop :=
  ∀ g tr, I (State g tr) → I (State g (tr ++ [ev])%list).

End Session.

(** ** The code cells *)

(** The constants the notebook hardcodes and that the specification treats
    as the configuration of a run. *)
Record config : Type := {
  cfg_atom : string;
  cfg_basis : string;
  cfg_map_type : string;
  cfg_qasm : bool;
}.

(** The configuration written in the notebook. *)
Definition hardcoded : config :=
  {| cfg_atom := "H .0 .0 .0; H .0 .0 1.6";
     cfg_basis := "sto3g";
     cfg_map_type := "parity";
     cfg_qasm := true |}.

(** The string literal passed to [IBMQ.save_account].  The notebook has a
    128-digit hexadecimal account token here; it is not repeated. *)
Definition account_token : string := "<the account token written in the notebook>".

Section Notebook.
Context {C : Carrier} {fw : Framework C}.

(** [# import common packages] *)
Definition cell_import : Py unit :=
  assign "np" (VImport "numpy");;
  assign "plt" (VImport "matplotlib.pyplot");;
  import_from "qiskit" ["Aer"; "IBMQ"; "QuantumRegister"];;
  import_from "qiskit.providers.ibmq" ["least_busy"];;
  import_from "qiskit.aqua" ["Operator"; "QuantumInstance"];;
  import_from "qiskit.aqua.algorithms" ["VQE"; "ExactEigensolver"];;
  import_from "qiskit.aqua.components.optimizers" ["COBYLA"; "SPSA"; "P_BFGS"];;
  import_from "qiskit.aqua.components.variational_forms" ["RY"; "RYRZ"];;
  import_from "qiskit.chemistry" ["FermionicOperator"];;
  import_from "qiskit.chemistry.drivers" ["PySCFDriver"; "UnitsType"];;
  import_from "qiskit.chemistry.aqua_extensions.components.variational_forms" ["UCCSD"];;
  import_from "qiskit.chemistry.aqua_extensions.components.initial_states" ["HartreeFock"].

(** [# using driver to get fermionic Hamiltonian] *)
Definition cell_driver (cfg : config) : Py unit :=
  _ ← name "PySCFDriver";
  _ ← name "UnitsType";
  assign "driver" (VDriver {| atom := cfg_atom cfg; unit_ := "ANGSTROM";
                              charge := 0; spin := 0; basis := cfg_basis cfg |});;
  d ← expect "driver" to_driver;
  m ← invoke CDriverRun (driver_run d);
  assign "molecule" (VMolecule m);;
  m ← expect "molecule" to_molecule;
  assign "nuclear_repulsion_energy" (VFloat (nuclear_repulsion_energy m));;
  ma ← expect "molecule" to_molecule;
  mb ← expect "molecule" to_molecule;
  assign "num_particles" (VInt (num_alpha ma + num_beta mb));;
  m ← expect "molecule" to_molecule;
  assign "num_spin_orbitals" (VInt (num_orbitals m * 2));;
  ma ← expect "molecule" to_molecule;
  mb ← expect "molecule" to_molecule;
  emit (Print "HF energy: {}"
          (Some (VFloat (fsub (hf_energy ma) (nuclear_repulsion_energy mb)))));;
  n ← name "num_particles";
  emit (Print "# of electrons: {}" (Some n));;
  n ← name "num_spin_orbitals";
  emit (Print "# of spin orbitals: {}" (Some n)).

(** [# choose mapping type ('jordan_wigner', 'parity' or 'bravyi_kitaev')] *)
Definition cell_map_type (cfg : config) : Py unit :=
  assign "map_type" (VStr (cfg_map_type cfg)).

(** [# prepare fermionic hamiltonian] *)
Definition cell_fermionic : Py unit :=
  m ← expect "molecule" to_molecule;
  assign "h1" (VTensor (one_body_integrals m));;
  m ← expect "molecule" to_molecule;
  assign "h2" (VTensor (two_body_integrals m));;
  _ ← name "FermionicOperator";
  t1 ← expect "h1" to_tensor;
  t2 ← expect "h2" to_tensor;
  assign "ferOp" (VFermionic {| h1 := t1; h2 := t2 |}).

(** [True if map_type == 'parity' else False] *)
Definition qubit_reduction (map_type : value) : bool :=
  if eq_str map_type "parity" then true else false.

(** [# map fermionic hamiltonian to qubit hamiltonian] *)
Definition cell_qubit_hamiltonian : Py unit :=
  mt ← name "map_type";
  assign "qubit_reduction" (VBool (qubit_reduction mt));;
  f ← expect "ferOp" to_fermionic;
  mt ← expect "map_type" to_str;
  q ← invoke (CMapping mt) (mapping f mt (float_lit 1 (-8)));
  assign "qubitOp" (VOperator q);;
  reduce ← expect "qubit_reduction" to_bool;
  q ← (if (reduce : bool)
       then q ← expect "qubitOp" to_operator;
            n ← expect "num_particles" to_int;
            invoke (CTwoQubitReduced n) (two_qubit_reduced_operator q n)
       else expect "qubitOp" to_operator);
  assign "qubitOp" (VOperator q);;
  q ← expect "qubitOp" to_operator;
  q ← invoke CChop (chop q (float_lit 1 (-10)));
  assign "qubitOp" (VOperator q);;
  q ← name "qubitOp";
  emit (Print "{}" (Some q));;
  _ ← name "qubitOp";
  emit (Display "qubitOp.paulis").

(** [# setup classical optimizer] *)
Definition cell_optimizer : Py unit :=
  assign "max_eval" (VInt 200);;
  _ ← name "COBYLA";
  n ← expect "max_eval" to_int;
  assign "optimizer" (VOptimizer (COBYLA n)).

(** [# setup HartreeFock state] *)
Definition cell_HF_state : Py unit :=
  _ ← name "HartreeFock";
  q ← expect "qubitOp" to_operator;
  no ← expect "num_spin_orbitals" to_int;
  np ← expect "num_particles" to_int;
  mt ← expect "map_type" to_str;
  red ← expect "qubit_reduction" to_bool;
  assign "HF_state"
    (VHartreeFock {| hf_num_qubits := num_qubits q; hf_num_orbitals := no;
                     hf_num_particles := np; hf_qubit_mapping := mt;
                     hf_two_qubit_reduction := red |}).

(** [# setup variational form] *)
Definition cell_var_form : Py unit :=
  _ ← name "UCCSD";
  q ← expect "qubitOp" to_operator;
  no ← expect "num_spin_orbitals" to_int;
  np ← expect "num_particles" to_int;
  hf ← expect "HF_state" to_hartree_fock;
  mt ← expect "map_type" to_str;
  red ← expect "qubit_reduction" to_bool;
  assign "var_form"
    (VUCCSD {| vf_num_qubits := num_qubits q; vf_depth := 1;
               vf_num_orbitals := no; vf_num_particles := np;
               vf_initial_state := hf; vf_qubit_mapping := mt;
               vf_two_qubit_reduction := red; vf_num_time_slices := 1 |}).

(** [qasm = True] *)
Definition cell_qasm (cfg : config) : Py unit :=
  assign "qasm" (VBool (cfg_qasm cfg)).

(** A cell with nothing but comments, or empty. *)
Definition cell_comments : Py unit := mret tt.

(** [###COMMENT: This is needed for noisy simulations. Atm it does not work###] *)
Definition cell_backend_qasm : Py unit :=
  qasm ← expect "qasm" to_bool;
  if (qasm : bool) then
    _ ← name "Aer";
    b ← invoke (CAerGetBackend "qasm_simulator") (aer_get_backend "qasm_simulator");
    assign "qasm_simulator" (VBackend b);;
    _ ← name "IBMQ";
    invoke (CSaveAccount account_token true) (save_account account_token true);;
    _ ← name "IBMQ";
    invoke CLoadAccounts load_accounts;;
    _ ← name "least_busy";
    _ ← name "IBMQ";
    ds ← invoke CBackends backends;
    d ← invoke CLeastBusy (least_busy ds);
    assign "lb_device" (VBackend (IBMQBackend d));;
    v ← name "lb_device";
    emit (Print "{}" (Some v));;
    _ ← name "QuantumInstance";
    b ← expect "lb_device" to_backend;
    assign "quantum_instance"
      (VQuantumInstance {| qi_backend := b; qi_shots := None; qi_basis_gates := None;
                           qi_coupling_map := None; qi_initial_layout := None;
                           qi_noise_model := None |});;
    v ← name "lb_device";
    assign "device" v;;
    d ← expect "device" to_device;
    p ← invoke CProperties (properties d);
    assign "properties" (VProperties p);;
    d ← expect "device" to_device;
    c ← invoke CConfiguration (configuration_coupling_map d);
    assign "coupling_map" (VCoupling c);;
    _ ← name "noise";
    p ← expect "properties" to_properties;
    nm ← invoke CBasicDeviceNoiseModel (basic_device_noise_model p);
    assign "noise_model" (VNoiseModel nm);;
    nm ← expect "noise_model" to_noise_model;
    assign "basis_gates" (VStrings (basis_gates_of nm));;
    assign "shots" (VInt 10000);;
    _ ← name "QuantumInstance";
    b ← expect "qasm_simulator" to_backend;
    s ← expect "shots" to_int;
    bg ← expect "basis_gates" to_strings;
    cm ← expect "coupling_map" to_coupling;
    l ← expect "qubit_mapper" to_layout;
    nm ← expect "noise_model" to_noise_model;
    assign "quantum_instance"
      (VQuantumInstance {| qi_backend := b; qi_shots := Some s;
                           qi_basis_gates := Some bg; qi_coupling_map := Some cm;
                           qi_initial_layout := Some l; qi_noise_model := Some nm |});;
    assign "sv_mode" (VBool false);;
    q ← expect "qubitOp" to_operator;
    assign "num_qubits" (VInt (num_qubits q))
  else mret tt.

(** [if not qasm:] the statevector simulator *)
Definition cell_backend_statevector : Py unit :=
  qasm ← expect "qasm" to_bool;
  if negb qasm then
    _ ← name "Aer";
    b ← invoke (CAerGetBackend "statevector_simulator")
               (aer_get_backend "statevector_simulator");
    assign "sv_simulator" (VBackend b);;
    _ ← name "QuantumInstance";
    b ← expect "sv_simulator" to_backend;
    assign "quantum_instance"
      (VQuantumInstance {| qi_backend := b; qi_shots := None; qi_basis_gates := None;
                           qi_coupling_map := None; qi_initial_layout := None;
                           qi_noise_model := None |});;
    assign "sv_mode" (VBool true);;
    q ← expect "qubitOp" to_operator;
    assign "num_qubits" (VInt (num_qubits q))
  else mret tt.

(** [# setup VQE] *)
Definition cell_VQE : Py unit :=
  _ ← name "VQE";
  q ← expect "qubitOp" to_operator;
  vf ← expect "var_form" to_uccsd;
  o ← expect "optimizer" to_optimizer;
  assign "vqe" (VVQE {| vqe_operator := q; vqe_var_form := vf; vqe_optimizer := o |}).

(** [results = vqe.run(quantum_instance)] and the three reports *)
Definition cell_run : Py unit :=
  a ← expect "vqe" to_vqe;
  qi ← expect "quantum_instance" to_quantum_instance;
  r ← invoke CVqeRun (vqe_run a qi);
  assign "results" (VResults r);;
  r ← expect "results" to_results;
  e ← first "eigvals" (eigvals r);
  emit (Print "The computed ground state energy is: {:.12f}" (Some (VFloat e)));;
  r ← expect "results" to_results;
  e ← first "eigvals" (eigvals r);
  nre ← expect "nuclear_repulsion_energy" to_float;
  emit (Print "The total ground state energy is: {:.12f}" (Some (VFloat (fadd e nre))));;
  r ← expect "results" to_results;
  emit (Print "Parameters: {}" (Some (VArray1 (opt_params r)))).

(** [circuit = vqe.construct_circuit(...)] and its drawing *)
Definition cell_circuit : Py unit :=
  a ← expect "vqe" to_vqe;
  sv ← expect "sv_mode" to_bool;
  r ← expect "results" to_results;
  cs ← invoke CConstructCircuit (vqe_construct_circuit a sv (opt_params r));
  assign "circuit" (VCircuits cs);;
  cs ← expect "circuit" to_circuits;
  _ ← first "circuit" cs;
  emit (Display "circuit[0].draw").

(** [evolution_time = 100] ... [evolution_circuit.draw(output='mpl')] *)
Definition cell_evolution : Py unit :=
  assign "evolution_time" (VInt 100);;
  assign "num_time_slices" (VInt 10);;
  _ ← name "QuantumRegister";
  n ← expect "num_qubits" to_int;
  assign "qr" (VRegister n "q");;
  hf ← expect "HF_state" to_hartree_fock;
  c ← invoke CHFConstructCircuit (hf_construct_circuit hf "circuit");
  assign "initial_circuit" (VCircuit c);;
  q ← expect "qubitOp" to_operator;
  c ← expect "initial_circuit" to_circuit;
  t ← expect "evolution_time" to_int;
  k ← expect "num_time_slices" to_int;
  ec ← invoke (CEvolve t) (evolve q c t "circuit" k "trotter");
  assign "evolution_circuit" (VCircuit ec);;
  _ ← expect "evolution_circuit" to_circuit;
  emit (Display "evolution_circuit.draw").

(** *** NumPy *)

(** [np.zeros([r, c])]: float64, the default dtype *)
Definition np_zeros (r c : Z) : outcome ndarray2 :=
  if decide (r < 0 ∨ c < 0) then Raised (ValueError "negative dimensions are not allowed")
  else Returned {| ncols := Z.to_nat c;
                   rows := replicate (Z.to_nat r) (replicate (Z.to_nat c) fzero) |}.

(** Storing a complex128 into a float64 array keeps the real part. *)
Definition cast_float64 (z : complex) : scalar := fst z.

(** [a[i,:] = v] for a complex vector [v] and [i >= 0]: the shapes must be
    equal, or [v] has one element, which is repeated along the row. *)
Definition set_row (a : ndarray2) (i : Z) (v : list complex) : outcome ndarray2 :=
  if decide (0 ≤ i < Z.of_nat (length (rows a))) then
    if decide (length v = ncols a) then
      Returned {| ncols := ncols a;
                  rows := <[Z.to_nat i := map cast_float64 v]> (rows a) |}
    else
      match v with
      | [z] => Returned {| ncols := ncols a;
                           rows := <[Z.to_nat i := replicate (ncols a) (cast_float64 z)]> (rows a) |}
      | _ => Raised (ValueError "could not broadcast input array")
      end
  else Raised (IndexError "index is out of bounds for axis 0").

(** [a[:,j]] for [j >= 0] *)
Definition column (a : ndarray2) (j : nat) : outcome (list scalar) :=
  if decide (j < ncols a)%nat
  then Returned (map (λ row, default fzero (row !! j)) (rows a))
  else Raised (IndexError "index is out of bounds for axis 1").

(** [np.linspace(0, n-1, n)]: the step is exactly one. *)
Definition linspace_upto (n : Z) : outcome (list scalar) :=
  if decide (n < 0) then Raised (ValueError "Number of samples must be non-negative")
  else Returned (map float_of_int (seqZ 0 n)).

(** The body of [for evo_t in range(max_time):] *)
Definition sweep_body (evo_t : Z) : Py unit :=
  assign "evo_t" (VInt evo_t);;
  q ← expect "qubitOp" to_operator;
  c ← expect "initial_circuit" to_circuit;
  t ← expect "evo_t" to_int;
  k ← expect "num_time_slices" to_int;
  ec ← invoke (CEvolve t) (evolve q c t "circuit" k "trotter");
  assign "evolution_circuit" (VCircuit ec);;
  qi ← expect "quantum_instance" to_quantum_instance;
  ec ← expect "evolution_circuit" to_circuit;
  r ← invoke CExecute (execute qi ec);
  assign "result" (VExecResult r);;
  _ ← name "np";
  r ← expect "result" to_exec_result;
  ec ← expect "evolution_circuit" to_circuit;
  sv ← invoke CGetStatevector (get_statevector r ec);
  a ← expect "statevector_of_t" to_array2;
  t ← expect "evo_t" to_int;
  a ← lift (set_row a t sv);
  assign "statevector_of_t" (VArray2 a).

(** One pair [t, statevector_of_t[:,j]] of the arguments of [plt.plot], or
    [t, np.abs(statevector_of_t[:,j])]. *)
Definition plotted (via_abs : bool) (j : nat) : Py (list scalar) :=
  _ ← expect "t" to_array1;
  (if via_abs then _ ← name "np"; mret tt else mret tt);;
  a ← expect "statevector_of_t" to_array2;
  c ← lift (column a j);
  mret (if via_abs then map fabs c else c).

(** [plt.figure(n); plt.plot(t, .., '-r', t, .., '-b', t, .., '-g', t, .., '-y');
    plt.xlabel(..); plt.ylabel(..); plt.show()] *)
Definition plot_columns (number : Z) (via_abs : bool) : Py unit :=
  _ ← name "plt";
  _ ← name "plt";
  c0 ← plotted via_abs 0;
  c1 ← plotted via_abs 1;
  c2 ← plotted via_abs 2;
  c3 ← plotted via_abs 3;
  emit (Figure number [c0; c1; c2; c3]);;
  _ ← name "plt";
  _ ← name "plt";
  _ ← name "plt";
  emit (Display "plt.show").

(** [max_time=evolution_time] ... the sweep and the two figures *)
Definition cell_sweep : Py unit :=
  t ← name "evolution_time";
  assign "max_time" t;;
  _ ← name "np";
  m ← expect "max_time" to_int;
  n ← expect "num_qubits" to_int;
  a ← lift (np_zeros m (2 * n));
  assign "statevector_of_t" (VArray2 a);;
  m ← expect "max_time" to_int;
  for_range m sweep_body;;
  _ ← name "np";
  m ← expect "max_time" to_int;
  m' ← expect "max_time" to_int;
  ts ← lift (linspace_upto m');
  assign "t" (VArray1 ts);;
  plot_columns 1 false;;
  plot_columns 2 true.

(** *** The notebook: its code cells from top to bottom *)

Definition notebook (cfg : config) : list (Py unit) :=
  [ cell_import;
    cell_driver cfg;
    cell_map_type cfg;
    cell_fermionic;
    cell_qubit_hamiltonian;
    cell_optimizer;
    cell_HF_state;
    cell_var_form;
    cell_qasm cfg;
    cell_comments;
    cell_backend_qasm;
    cell_backend_statevector;
    cell_VQE;
    cell_comments;
    cell_run;
    cell_circuit;
    cell_evolution;
    cell_sweep;
    cell_comments ].

(** Running the cells in order ("Run All"): the first cell that raises ends
    the run, and the run reports which cell it was. *)
Inductive stop : Type :=
| Finished
| Failed (cell : nat) (e : pyerr).

Fixpoint run_cells (i : nat) (cells : list (Py unit)) (st : state) : stop * state :=
  match cells with
  | [] => (Finished, st)
  | c :: rest =>
      match c st with
      | (Returned _, st') => run_cells (S i) rest st'
      | (Raised e, st') => (Failed i e, st')
      end
  end.

Definition run_all (cfg : config) : stop * state :=
  run_cells 0 (notebook cfg) initial.

(** The run of the first [k] code cells, and the run of the others from the
    state they leave. *)
Definition run_upto (k : nat) (cfg : config) : stop * state :=
  run_cells 0 (take k (notebook cfg)) initial.

Definition run_from (k : nat) (cfg : config) (st : state) : stop * state :=
  run_cells k (drop k (notebook cfg)) st.

(** Positions of cells in [notebook]. *)
Definition at_qubit_hamiltonian : nat := 4.
Definition at_var_form : nat := 7.
Definition at_backend_qasm : nat := 10.
Definition at_VQE : nat := 12.
Definition at_run : nat := 14.
Definition at_evolution : nat := 16.
Definition at_sweep : nat := 17.

(** *** Reading a trace *)

(** [IBMQ.save_account] stores the token in the Qiskit configuration file of
    the user ("If you do not store your token yet, use
    [IBMQ.save_account('MY_API_TOKEN')] to store it first"); it is the only
    call of the notebook that is there to store something. *)
Definition persists (ev : event) : bool :=
  match ev with
  | Call (CSaveAccount _ _) => true
  | _ => false
  end.

(** The solver and what follows it: [vqe.run], circuit construction, time
    evolution and circuit execution. *)
Definition after_backend_setup (ev : event) : bool :=
  match ev with
  | Call CVqeRun | Call CConstructCircuit | Call CHFConstructCircuit
  | Call (CEvolve _) | Call CExecute | Call CGetStatevector
  | Figure _ _ => true
  | _ => false
  end.

(** [Aer.get_backend('statevector_simulator')] *)
Definition statevector_branch (ev : event) : bool :=
  match ev with
  | Call (CAerGetBackend b) => String.eqb b "statevector_simulator"
  | _ => false
  end.

Definition is_two_qubit_reduced (ev : event) : bool :=
  match ev with
  | Call (CTwoQubitReduced _) => true
  | _ => false
  end.

Definition is_vqe_run (ev : event) : bool :=
  match ev with
  | Call CVqeRun => true
  | _ => false
  end.

(** What the cells after the solver cell do: circuits are built, evolved,
    executed and drawn.  Nothing is printed, nothing is stored and the
    solver is not run again. *)
Definition quiet (ev : event) : bool :=
  match ev with
  | Display _ | Figure _ _ => true
  | Call CConstructCircuit | Call CHFConstructCircuit
  | Call (CEvolve _) | Call CExecute | Call CGetStatevector => true
  | _ => false
  end.

(** [results] stays bound to what it is bound to, and only [quiet] events are
    added to the trace. *)
Definition after_run (o : option value) (tr : list event) : state → Prop :=
  λ st, bound "results" o st ∧ added quiet tr st.

(** [quantum_instance.execute(c)] followed by [result.get_statevector(c)],
    the two calls of the sweep that turn a circuit into amplitudes. *)
Definition statevector_of (qi : QuantumInstance) (c : circuit) : outcome (list complex) :=
  match execute qi c with
  | Returned r => get_statevector r c
  | Raised e => Raised e
  end.

(** *** What is assumed of the framework

    The notebook owns none of the computations; where a claim is about
    their results, it is proved for every framework that keeps the
    following promises. *)

(** Qubit counts: mapping the integrals of a molecule gives an operator on
    one qubit per spin orbital, the two-qubit reduction removes two qubits,
    and chopping small coefficients removes none. *)
Definition qubit_count_contract : Prop :=
  (∀ d m mt thr q,
     driver_run d = Returned m →
     mapping {| h1 := one_body_integrals m; h2 := two_body_integrals m |} mt thr
       = Returned q →
     num_qubits q = num_orbitals m * 2) ∧
  (∀ q n q', two_qubit_reduced_operator q n = Returned q' →
             num_qubits q' = num_qubits q - 2) ∧
  (∀ q thr q', chop q thr = Returned q' → num_qubits q' = num_qubits q).

(** Evolving a circuit for time zero gives a circuit with the same
    statevector. *)
Definition evolution_by_zero_is_identity : Prop :=
  ∀ q c k qi ec,
    evolve q c 0 "circuit" k "trotter" = Returned ec →
    statevector_of qi ec = statevector_of qi c.

(** The names the sweep cell reads, as the cells before it leave them. *)
Definition sweep_inputs (st : state) (q : qubit_op) (c : circuit)
    (qi : QuantumInstance) (k n T : Z) : Prop :=
  bound "np" (Some (VImport "numpy")) st ∧
  bound "evolution_time" (Some (VInt T)) st ∧
  bound "num_qubits" (Some (VInt n)) st ∧
  bound "qubitOp" (Some (VOperator q)) st ∧
  bound "initial_circuit" (Some (VCircuit c)) st ∧
  bound "num_time_slices" (Some (VInt k)) st ∧
  bound "quantum_instance" (Some (VQuantumInstance qi)) st.

(** A complex128 with no imaginary part. *)
Definition of_real (x : scalar) : complex := (x, fzero).

(** Row 0 of [statevector_of_t] is [x]. *)
Definition row_zero_is (x : list scalar) : state → Prop :=
  λ st, ∃ a, bound "statevector_of_t" (Some (VArray2 a)) st ∧ rows a !! 0%nat = Some x.

(** What holds between the iterations of the sweep once the first one is
    done. *)
Definition sweeping (q : qubit_op) (c : circuit) (qi : QuantumInstance) (k : Z)
    (x : list scalar) : state → Prop :=
  λ st, bound "np" (Some (VImport "numpy")) st ∧
        bound "qubitOp" (Some (VOperator q)) st ∧
        bound "initial_circuit" (Some (VCircuit c)) st ∧
        bound "num_time_slices" (Some (VInt k)) st ∧
        bound "quantum_instance" (Some (VQuantumInstance qi)) st ∧
        row_zero_is x st.

(** The calls of the sampled-backend cell that come before the line with
    [noise] all return. *)
Definition backend_calls_return : Prop :=
  (∃ b, aer_get_backend "qasm_simulator" = Returned b) ∧
  save_account account_token true = Returned tt ∧
  load_accounts = Returned tt ∧
  ∃ ds d, backends = Returned ds ∧ least_busy ds = Returned d ∧
          (∃ p, properties d = Returned p) ∧
          (∃ c, configuration_coupling_map d = Returned c).

(** *** More readings of a run *)

(** Calls to the IBMQ account and to its devices. *)
Definition is_remote (ev : event) : bool :=
  match ev with
  | Call (CSaveAccount _ _) | Call CLoadAccounts | Call CBackends
  | Call CLeastBusy | Call CProperties | Call CConfiguration => true
  | _ => false
  end.

(** What [a[i,:] = v] leaves in a row of [w] places. *)
Definition row_written (w : nat) (v : list complex) (row : list scalar) : Prop :=
  (length v = w ∧ row = map cast_float64 v) ∨
  (length v ≠ w ∧ ∃ z, v = [z] ∧ row = replicate w (cast_float64 z)).

(** Row [t] of [a] was written from the statevector of the circuit evolved
    for time [t]. *)
Definition recorded (q : qubit_op) (c : circuit) (qi : QuantumInstance) (k : Z)
    (a : ndarray2) (t : Z) : Prop :=
  ∃ ec sv row,
    evolve q c t "circuit" k "trotter" = Returned ec ∧
    statevector_of qi ec = Returned sv ∧
    rows a !! Z.to_nat t = Some row ∧
    row_written (ncols a) sv row.

(** The framework calls of the iteration for [evo_t = t]. *)
Definition sweep_calls (t : Z) : list event :=
  [Call (CEvolve t); Call CExecute; Call CGetStatevector].

(** [a[:,0]], ..., [a[:,3]] *)
Definition first_four_columns (a : ndarray2) : list (list scalar) :=
  map (λ j : nat, map (λ row, default fzero (row !! j)) (rows a)) [0; 1; 2; 3]%nat.

(** What the sweep cell has done when it returns: the array, its shape, the
    rows, and the events in their order. *)
Definition swept_all (q : qubit_op) (c : circuit) (qi : QuantumInstance)
    (k n T : Z) (tr : list event) : state → Prop :=
  λ st, ∃ a,
    bound "statevector_of_t" (Some (VArray2 a)) st ∧
    ncols a = Z.to_nat (2 * n) ∧
    length (rows a) = Z.to_nat T ∧
    (∀ t, (0 ≤ t < T)%Z → recorded q c qi k a t) ∧
    trace st =
      (tr ++ flat_map sweep_calls (seqZ 0 T) ++
       [Figure 1 (first_four_columns a); Display "plt.show";
        Figure 2 (map (map fabs) (first_four_columns a)); Display "plt.show"])%list.

(** Between two iterations of the sweep, before the one for [evo_t = i]. *)
Definition sweep_at (q : qubit_op) (c : circuit) (qi : QuantumInstance)
    (k n T : Z) (plt : option value) (tr : list event) (i : Z) : state → Prop :=
  λ st,
    bound "np" (Some (VImport "numpy")) st ∧
    bound "plt" plt st ∧
    bound "max_time" (Some (VInt T)) st ∧
    bound "qubitOp" (Some (VOperator q)) st ∧
    bound "initial_circuit" (Some (VCircuit c)) st ∧
    bound "num_time_slices" (Some (VInt k)) st ∧
    bound "quantum_instance" (Some (VQuantumInstance qi)) st ∧
    trace st = (tr ++ flat_map sweep_calls (seqZ 0 i))%list ∧
    ∃ a, bound "statevector_of_t" (Some (VArray2 a)) st ∧
         ncols a = Z.to_nat (2 * n) ∧
         length (rows a) = Z.to_nat T ∧
         ∀ t, (0 ≤ t < i)%Z → recorded q c qi k a t.

(** [qubitOp.evolve(...)] *)
Definition is_evolve (ev : event) : bool :=
  match ev with Call (CEvolve _) => true | _ => false end.

(** [PySCFDriver(...)] as the driver cell builds it. *)
Definition driver_of (cfg : config) : PySCFDriver :=
  {| atom := cfg_atom cfg; unit_ := "ANGSTROM"; charge := 0; spin := 0;
     basis := cfg_basis cfg |}.

(** The three reports of the solver cell. *)
Definition is_solver_report (ev : event) : bool :=
  match ev with
  | Print text _ =>
      String.eqb text "The computed ground state energy is: {:.12f}" ||
      String.eqb text "The total ground state energy is: {:.12f}" ||
      String.eqb text "Parameters: {}"
  | _ => false
  end.

End Notebook.

(** ** A stand-in framework

    A small framework on which the cells can be run: the hydrogen molecule
    with two orbitals and two electrons, operators represented by their
    number of qubits, circuits by their number of qubits and the time they
    evolve the Hartree-Fock state for, and float64 by integers. *)
Module Stub.

#[export] Instance carrier : Carrier := {|
  scalar := Z; tensor := Z; qubit_op := Z; circuit := Z * Z;
  device := string; properties_t := unit; coupling_map_t := unit;
  noise_model_t := unit; layout_t := unit; exec_result := Z * Z |}.

(** A statevector on [n] qubits, with [2^n] amplitudes; after an evolution
    for [t <> 0] the second amplitude has imaginary part [t]. *)
Definition amplitudes (c : Z * Z) : list complex :=
  let '(n, t) := c in
  (0, 0) :: (1 - t, t) :: replicate (Z.to_nat (2 ^ n) - 2) (0, 0).

#[export] Instance framework : Framework carrier := {|
  fzero := 0; fadd := Z.add; fsub := Z.sub; fabs := Z.abs;
  float_lit m e := 0; float_of_int z := z;
  num_qubits q := q;
  basis_gates_of _ := [];
  driver_run d :=
    Returned {| nuclear_repulsion_energy := 330; num_alpha := 1; num_beta := 1;
                num_orbitals := 2; hf_energy := -900;
                one_body_integrals := 4; two_body_integrals := 4 |};
  mapping f mt _ :=
    if decide (mt ∈ ["jordan_wigner"; "parity"; "bravyi_kitaev"])
    then Returned (h1 f) else Raised (FrameworkError "mapping");
  two_qubit_reduced_operator q n := Returned (q - 2);
  chop q _ := Returned q;
  aer_get_backend n := Returned (AerBackend n);
  save_account _ _ := Returned tt;
  load_accounts := Returned tt;
  backends := Returned ["ibmqx4"];
  least_busy ds :=
    match ds with
    | d :: _ => Returned d
    | [] => Raised (FrameworkError "least_busy")
    end;
  properties _ := Returned tt;
  configuration_coupling_map _ := Returned tt;
  basic_device_noise_model _ := Returned tt;
  vqe_run a qi := Returned {| eigvals := [-1200]; opt_params := [0; 0; 7] |};
  vqe_construct_circuit a sv p := Returned [(vqe_operator a, 0)];
  hf_construct_circuit hf mode := Returned (hf_num_qubits hf, 0);
  evolve q c t mode k exp := Returned (c.1, c.2 + t);
  execute qi c := Returned c;
  get_statevector r c := Returned (amplitudes r);
|}.

(** The notebook's configuration with the statevector simulator chosen. *)
Definition exact : config :=
  {| cfg_atom := cfg_atom hardcoded; cfg_basis := cfg_basis hardcoded;
     cfg_map_type := cfg_map_type hardcoded; cfg_qasm := false |}.

(** The same with the Jordan-Wigner mapping. *)
Definition exact_jordan_wigner : config :=
  {| cfg_atom := cfg_atom hardcoded; cfg_basis := cfg_basis hardcoded;
     cfg_map_type := "jordan_wigner"; cfg_qasm := false |}.

(** The state in which the run of [exact] reaches the sweep cell, and the
    quantum instance it has set up. *)
Definition before_sweep : state := (run_upto at_sweep exact).2.

Definition statevector_instance : QuantumInstance :=
  {| qi_backend := AerBackend "statevector_simulator"; qi_shots := None;
     qi_basis_gates := None; qi_coupling_map := None;
     qi_initial_layout := None; qi_noise_model := None |}.

(** The stand-in framework with another driver and another solver. *)
Definition variant (driver : PySCFDriver → outcome QMolecule)
    (solver : VQE → QuantumInstance → outcome results_t) : Framework carrier := {|
  fzero := fzero; fadd := fadd; fsub := fsub; fabs := fabs;
  float_lit := float_lit; float_of_int := float_of_int;
  num_qubits := num_qubits; basis_gates_of := basis_gates_of;
  driver_run := driver;
  mapping := mapping;
  two_qubit_reduced_operator := two_qubit_reduced_operator;
  chop := chop;
  aer_get_backend := aer_get_backend;
  save_account := save_account;
  load_accounts := load_accounts;
  backends := backends;
  least_busy := least_busy;
  properties := properties;
  configuration_coupling_map := configuration_coupling_map;
  basic_device_noise_model := basic_device_noise_model;
  vqe_run := solver;
  vqe_construct_circuit := vqe_construct_circuit;
  hf_construct_circuit := hf_construct_circuit;
  evolve := evolve;
  execute := execute;
  get_statevector := get_statevector;
|}.

(** The molecule that the driver of the stand-in framework returns. *)
Definition h2_molecule : QMolecule :=
  {| nuclear_repulsion_energy := 330; num_alpha := 1; num_beta := 1;
     num_orbitals := 2; hf_energy := -900;
     one_body_integrals := 4; two_body_integrals := 4 |}.

(** A driver that raises, a solver that returns no eigenvalue, and a solver
    that raises. *)
Definition no_driver : Framework carrier :=
  variant (λ _, Raised (FrameworkError "PySCF")) vqe_run.

Definition empty_eigvals : Framework carrier :=
  variant driver_run (λ _ _, Returned {| eigvals := []; opt_params := [] |}).

Definition failing_solver : Framework carrier :=
  variant driver_run (λ _ _, Raised (FrameworkError "vqe.run")).

(** A mapping name that the framework does not know. *)
Definition unknown_mapping : config :=
  {| cfg_atom := cfg_atom hardcoded; cfg_basis := cfg_basis hardcoded;
     cfg_map_type := "jordan-wigner"; cfg_qasm := false |}.

(** The state in which the run of [exact_jordan_wigner] reaches the sweep
    cell. *)
Definition before_sweep_jordan_wigner : state :=
  (run_upto at_sweep exact_jordan_wigner).2.

End Stub.

(** ** Stepping through statements

    One rule per kind of statement, each for a statement followed by the
    rest of its block. *)
Section Steps.
Context {C : Carrier}.
Implicit Types (g : gmap string value) (tr : list event) (st : state).

Lemma wp_last {A} (m : Py A) Q st : wp (m ≫= mret) Q st → wp m Q st.
Proof.
  unfold wp, mbind, Py_bind, mret, Py_ret.
  by destruct (m st) as [[a|e] st'].
Qed.

Lemma wp_assoc {A B D} (m : Py A) (f : A → Py B) (k : B → Py D) Q st :
  wp (m ≫= λ a, f a ≫= k) Q st → wp ((m ≫= f) ≫= k) Q st.
Proof.
  unfold wp, mbind, Py_bind.
  by destruct (m st) as [[a|e] st'].
Qed.

Lemma wp_ret {A B} (a : A) (f : A → Py B) Q st :
  wp (f a) Q st → wp (mret a ≫= f) Q st.
Proof. done. Qed.

Lemma wp_done {A} (a : A) (Q : outcome A → state → Prop) st :
  Q (Returned a) st → wp (mret a) Q st.
Proof. done. Qed.

Lemma wp_raise {A B} e (f : A → Py B) Q st :
  Q (Raised e) st → wp (raise e ≫= f) Q st.
Proof. done. Qed.

Lemma wp_name {B} x (f : value → Py B) Q g tr v :
  g !! x = Some v → wp (f v) Q (State g tr) → wp (name x ≫= f) Q (State g tr).
Proof. unfold wp, mbind, Py_bind, name. simpl. by intros ->. Qed.

Lemma wp_name_unbound {B} x (f : value → Py B) Q g tr :
  g !! x = None → Q (Raised (NameError x)) (State g tr) →
  wp (name x ≫= f) Q (State g tr).
Proof. unfold wp, mbind, Py_bind, name. simpl. by intros ->. Qed.

Lemma wp_expect {A B} x (proj : value → option A) (f : A → Py B) Q g tr v a :
  g !! x = Some v → proj v = Some a →
  wp (f a) Q (State g tr) → wp (expect x proj ≫= f) Q (State g tr).
Proof.
  unfold wp, expect, mbind, Py_bind, name. simpl. by intros -> ->.
Qed.

Lemma wp_expect_unbound {A B} x (proj : value → option A) (f : A → Py B) Q g tr :
  g !! x = None → Q (Raised (NameError x)) (State g tr) →
  wp (expect x proj ≫= f) Q (State g tr).
Proof.
  unfold wp, expect, mbind, Py_bind, name. simpl. by intros ->.
Qed.

Lemma wp_assign {B} x v (f : unit → Py B) Q g tr :
  wp (f tt) Q (State (<[x := v]> g) tr) → wp (assign x v ≫= f) Q (State g tr).
Proof. done. Qed.

Lemma wp_emit {B} ev (f : unit → Py B) Q g tr :
  wp (f tt) Q (State g (tr ++ [ev])) → wp (emit ev ≫= f) Q (State g tr).
Proof. done. Qed.

Lemma wp_invoke {A B} c (r : outcome A) (f : A → Py B) Q g tr :
  (∀ a, r = Returned a → wp (f a) Q (State g (tr ++ [Call c]))) →
  (∀ e, r = Raised e → Q (Raised e) (State g (tr ++ [Call c]))) →
  wp (invoke c r ≫= f) Q (State g tr).
Proof.
  unfold wp, mbind, Py_bind, invoke. simpl.
  destruct r; eauto.
Qed.

Lemma wp_lift {A B} (r : outcome A) (f : A → Py B) Q st :
  (∀ a, r = Returned a → wp (f a) Q st) →
  (∀ e, r = Raised e → Q (Raised e) st) →
  wp (lift r ≫= f) Q st.
Proof.
  unfold wp, mbind, Py_bind, lift. simpl.
  destruct r; eauto.
Qed.

Lemma wp_first {A B} what (xs : list A) (f : A → Py B) Q st :
  (∀ x rest, xs = x :: rest → wp (f x) Q st) →
  (xs = [] → Q (Raised (IndexError what)) st) →
  wp (first what xs ≫= f) Q st.
Proof.
  intros Hcons Hnil. destruct xs as [|x rest].
  - by apply Hnil.
  - by apply (Hcons x rest).
Qed.

Lemma wp_import_nil {B} path (f : unit → Py B) Q st :
  wp (f tt) Q st → wp (import_from path [] ≫= f) Q st.
Proof. done. Qed.

Lemma wp_import_cons {B} path x rest (f : unit → Py B) Q st :
  wp (assign x (VImport (path ++ "." ++ x)) ≫= λ _, import_from path rest ≫= f) Q st →
  wp (import_from path (x :: rest) ≫= f) Q st.
Proof. intros H. by apply wp_assoc in H. Qed.

(** Cells in a row. *)
Lemma run_cells_nil (R : stop * state → Prop) i st :
  R (Finished, st) → R (run_cells i [] st).
Proof. done. Qed.

Lemma run_cells_cons (R : stop * state → Prop) i c rest st :
  wp c (λ o st', match o with
                 | Returned _ => R (run_cells (S i) rest st')
                 | Raised e => R (Failed i e, st')
                 end) st →
  R (run_cells i (c :: rest) st).
Proof.
  unfold wp. simpl. by destruct (c st) as [[a|e] st'].
Qed.

Lemma run_cells_app i cells1 cells2 st :
  run_cells i (cells1 ++ cells2) st =
  match run_cells i cells1 st with
  | (Finished, st') => run_cells (i + length cells1) cells2 st'
  | failed => failed
  end.
Proof.
  revert i st. induction cells1 as [|c cells1 IH]; intros i st; simpl.
  - by rewrite Nat.add_0_r.
  - destruct (c st) as [[a|e] st']; [|done].
    rewrite IH. by replace (S i + length cells1)%nat with (i + S (length cells1))%nat by lia.
Qed.

End Steps.

(** The binding of [x] in a chain of insertions. *)
Ltac binding x g :=
  lazymatch g with
  | <[x := ?v]> _ => constr:(Some v)
  | <[_ := _]> ?g' => binding x g'
  | _ => lazymatch goal with
         | H : g !! x = ?o |- _ => constr:(o)
         | _ => constr:(@None value)
         end
  end.

(** The map under the insertions. *)
Ltac chain_base g :=
  lazymatch g with
  | <[_ := _]> ?g' => chain_base g'
  | _ => g
  end.

(** A goal [g !! x = o]: by evaluation when [g] is built on the empty map,
    and through the insertions when it is built on a map that is only known
    by hypotheses. *)
Ltac lookup_tac :=
  lazymatch goal with
  | |- ?g !! _ = _ =>
      let b := chain_base g in
      lazymatch b with
      | @empty _ _ => solve [vm_compute; reflexivity]
      | _ => solve [repeat (rewrite lookup_insert_ne by done);
                    first [apply lookup_insert_eq | assumption]]
      end
  end.

(** A goal [g !! x = o] in which [o] is still to be found. *)
Ltac lookup_ex :=
  lazymatch goal with
  | |- ?g !! ?x = _ =>
      let o := binding x g in
      transitivity o; [lookup_tac | reflexivity]
  end.

(** The head constant of an application. *)
Ltac head_of t :=
  lazymatch t with
  | ?f _ => head_of f
  | _ => t
  end.

(** A conditional: by evaluation when the condition is a constant, by cases
    otherwise. *)
Ltac step_if b :=
  let b' := eval cbv in b in
  lazymatch b' with
  | true => change b with true; cbv iota
  | false => change b with false; cbv iota
  | _ => destruct b eqn:?
  end.

(** One statement [m], followed by the rest of its block, from a state with
    globals [g]. *)
Ltac step_bind m g :=
  lazymatch m with
  | _ ≫= _ => apply wp_assoc
  | mret _ => apply wp_ret
  | raise _ => apply wp_raise
  | name ?x =>
      let o := binding x g in
      lazymatch o with
      | Some ?v => eapply (wp_name x _ _ g _ v); [lookup_tac|]
      | None => eapply wp_name_unbound; [lookup_tac|]
      end
  | expect ?x _ =>
      let o := binding x g in
      lazymatch o with
      | Some ?v => eapply (wp_expect x _ _ _ g _ v); [lookup_tac|reflexivity|]
      | None => eapply wp_expect_unbound; [lookup_tac|]
      end
  | assign _ _ => apply wp_assign
  | emit _ => apply wp_emit
  | invoke _ _ => apply wp_invoke; intros ? ?
  | lift _ => apply wp_lift; intros ? ?
  | first _ _ => apply wp_first; [intros ? ? ?|intros ?]
  | import_from _ [] => apply wp_import_nil
  | import_from _ (_ :: _) => apply wp_import_cons
  | if ?b then _ else _ => step_if b
  | _ => let h := head_of m in unfold h
  end.

(** One step of a run: the next statement of the current cell, or the next
    cell. *)
Ltac step :=
  lazymatch goal with
  | |- wp (?m ≫= _) _ (State ?g _) => step_bind m g; cbv beta
  | |- wp (mret _) _ _ => apply wp_done; cbv beta iota
  | |- wp (if ?b then _ else _) _ _ => step_if b
  | |- wp (raise _) _ _ => apply wp_last
  | |- wp (name _) _ _ => apply wp_last
  | |- wp (expect _ _) _ _ => apply wp_last
  | |- wp (assign _ _) _ _ => apply wp_last
  | |- wp (emit _) _ _ => apply wp_last
  | |- wp (invoke _ _) _ _ => apply wp_last
  | |- wp (lift _) _ _ => apply wp_last
  | |- wp (first _ _) _ _ => apply wp_last
  | |- wp (import_from _ _) _ _ => apply wp_last
  | |- wp ?m _ _ => let h := head_of m in unfold h
  | |- context [run_cells ?i (?c :: ?rest) ?st] =>
      pattern (run_cells i (c :: rest) st); apply run_cells_cons; cbv beta
  | |- context [run_cells ?i [] ?st] =>
      pattern (run_cells i [] st); apply run_cells_nil; cbv beta
  end.

(** Writes out the cells of a run. *)
Ltac list_cells :=
  unfold run_all, run_upto, run_from, initial;
  repeat match goal with
  | |- context [take ?k (notebook ?cfg)] =>
      let l := eval cbv [take notebook at_qubit_hamiltonian at_var_form
                         at_backend_qasm at_VQE at_run at_evolution at_sweep]
               in (take k (notebook cfg)) in
      change (take k (notebook cfg)) with l
  | |- context [drop ?k (notebook ?cfg)] =>
      let l := eval cbv [drop notebook at_qubit_hamiltonian at_var_form
                         at_backend_qasm at_VQE at_run at_evolution at_sweep]
               in (drop k (notebook cfg)) in
      change (drop k (notebook cfg)) with l
  end;
  unfold notebook.

(** ** Invariants of statements

    Rules for [preserves], by the shape of the statement.  Only [assign],
    [emit] and [invoke] change the state. *)
Section Frame.
Context {C : Carrier}.
Implicit Types (I : state → Prop) (g : gmap string value) (tr : list event).

Lemma preserves_ret {A} I (a : A) : preserves I (mret a).
Proof. by intros st. Qed.

Lemma preserves_raise {A} I e : preserves I (raise (A := A) e).
Proof. by intros st. Qed.

Lemma preserves_bind {A B} I (m : Py A) (f : A → Py B) :
  preserves I m → (∀ a, preserves I (f a)) → preserves I (m ≫= f).
Proof.
  intros Hm Hf st Hst. specialize (Hm st Hst).
  unfold mbind, Py_bind. destruct (m st) as [[a|e] st']; simpl in *.
  - by apply Hf.
  - done.
Qed.

Lemma preserves_name I x : preserves I (name x).
Proof. intros st Hst. unfold name. by destruct (globals st !! x). Qed.

Lemma preserves_expect {A} I x (proj : value → option A) : preserves I (expect x proj).
Proof.
  apply preserves_bind; [apply preserves_name|].
  intros v. destruct (proj v); [apply preserves_ret | apply preserves_raise].
Qed.

Lemma preserves_lift {A} I (r : outcome A) : preserves I (lift r).
Proof. by intros st. Qed.

Lemma preserves_first {A} I what (xs : list A) : preserves I (first what xs).
Proof. destruct xs; [apply preserves_raise | apply preserves_ret]. Qed.

Lemma preserves_assign I x v : stable_assign I x → preserves I (assign x v).
Proof. intros H [g tr] Hst. by apply H. Qed.

Lemma preserves_emit I ev : stable_emit I ev → preserves I (emit ev).
Proof. intros H [g tr] Hst. by apply H. Qed.

Lemma preserves_invoke {A} I c (r : outcome A) :
  stable_emit I (Call c) → preserves I (invoke c r).
Proof. intros H [g tr] Hst. by apply H. Qed.

Lemma preserves_for_range_from I start count (body : Z → Py unit) :
  (∀ i, preserves I (body i)) → preserves I (for_range_from start count body).
Proof.
  intros Hbody. revert start.
  induction count as [|k IH]; intros start; simpl.
  - apply preserves_ret.
  - apply preserves_bind; [apply Hbody | intros _; apply IH].
Qed.

Lemma preserves_for_range I n (body : Z → Py unit) :
  (∀ i, preserves I (body i)) → preserves I (for_range n body).
Proof. apply preserves_for_range_from. Qed.

Lemma preserves_run_cells I i (cells : list (Py unit)) st :
  Forall (preserves I) cells → I st → I (run_cells i cells st).2.
Proof.
  intros Hcells. revert i st.
  induction Hcells as [|c cells Hc _ IH]; intros i st Hst; simpl; [done|].
  specialize (Hc st Hst).
  destruct (c st) as [[a|e] st']; simpl in *; [by apply IH | done].
Qed.

(** *** The two invariants used below *)

Lemma bound_assign x y o : x ≠ y → stable_assign (bound y o) x.
Proof. intros Hne v g tr. unfold bound. simpl. by rewrite lookup_insert_ne. Qed.

Lemma bound_emit y o ev : stable_emit (bound y o) ev.
Proof. by intros g tr. Qed.

Lemma added_assign φ tr0 x : stable_assign (added φ tr0) x.
Proof. by intros v g tr. Qed.

Lemma added_emit φ tr0 ev : φ ev = true → stable_emit (added φ tr0) ev.
Proof.
  intros Hev g tr (l & Htr & Hl). simpl in Htr. subst tr.
  exists (l ++ [ev])%list. split.
  - simpl. by rewrite app_assoc.
  - rewrite forallb_app. simpl. by rewrite Hl, Hev.
Qed.

Lemma added_refl φ g tr : added φ tr (State g tr).
Proof. exists []. split; [by rewrite app_nil_r | done]. Qed.

Lemma added_filter φ ψ tr st :
  (∀ ev, φ ev = true → ψ ev = false) →
  added φ tr st → List.filter ψ (trace st) = List.filter ψ tr.
Proof.
  intros Hφ (l & -> & Hl). rewrite List.filter_app.
  assert (List.filter ψ l = []) as ->; [|by rewrite app_nil_r].
  induction l as [|ev l IH]; [done|]. simpl in *.
  apply andb_true_iff in Hl as [Hev Hl]. by rewrite (Hφ ev Hev), IH.
Qed.

End Frame.

(** Takes [preserves I m] apart along [m], down to the assignments and
    events of [m]. *)
Ltac preserve :=
  repeat lazymatch goal with
  | |- preserves _ (_ ≫= _) => apply preserves_bind; [|intros ?]
  | |- preserves _ (mret _) => apply preserves_ret
  | |- preserves _ (raise _) => apply preserves_raise
  | |- preserves _ (name _) => apply preserves_name
  | |- preserves _ (expect _ _) => apply preserves_expect
  | |- preserves _ (lift _) => apply preserves_lift
  | |- preserves _ (first _ _) => apply preserves_first
  | |- preserves _ (assign _ _) => apply preserves_assign
  | |- preserves _ (emit _) => apply preserves_emit
  | |- preserves _ (invoke _ _) => apply preserves_invoke
  | |- preserves _ (for_range _ _) => apply preserves_for_range; intros ?
  | |- preserves _ (if ?b then _ else _) => destruct b
  | |- preserves _ ?m => let h := head_of m in unfold h
  end.

Section AfterRun.
Context {C : Carrier} {fw : Framework C}.

(** *** After the solver cell *)

Lemma after_run_assign o tr x : x ≠ "results" → stable_assign (after_run o tr) x.
Proof.
  intros Hne v g tr' [H1 H2]. split.
  - by apply bound_assign.
  - by apply added_assign.
Qed.

Lemma after_run_emit o tr ev : quiet ev = true → stable_emit (after_run o tr) ev.
Proof.
  intros Hev g tr' [H1 H2]. split.
  - by apply bound_emit.
  - by apply added_emit.
Qed.

Ltac after_run_tac :=
  preserve;
  lazymatch goal with
  | |- stable_assign _ _ => by apply after_run_assign
  | |- stable_emit _ _ => by apply after_run_emit
  end.

Lemma cell_circuit_after_run o tr : preserves (after_run o tr) cell_circuit.
Proof. after_run_tac. Qed.

Lemma cell_evolution_after_run o tr : preserves (after_run o tr) cell_evolution.
Proof. after_run_tac. Qed.

Lemma cell_sweep_after_run o tr : preserves (after_run o tr) cell_sweep.
Proof. after_run_tac. Qed.

Lemma run_from_after_run cfg o tr st :
  after_run o tr st → after_run o tr (run_from (S at_run) cfg st).2.
Proof.
  list_cells. apply preserves_run_cells.
  constructor; [apply cell_circuit_after_run|].
  constructor; [apply cell_evolution_after_run|].
  constructor; [apply cell_sweep_after_run|].
  constructor; [apply preserves_ret|].
  constructor.
Qed.

End AfterRun.

(** ** Splitting a run *)
Section Split.
Context {C : Carrier} {fw : Framework C}.

Lemma finished_inv (st1 st2 : state) (P : Prop) :
  (∀ E : st1 = st2, P) → (Finished, st1) = (Finished, st2) → P.
Proof. intros H E. apply H. exact (f_equal snd E). Qed.

Lemma failed_inv i e (st1 st2 : state) (P : Prop) :
  (Failed i e, st1) = (Finished, st2) → P.
Proof. intros E. pose proof (f_equal fst E) as E'. discriminate E'. Qed.

Lemma run_all_split (k : nat) (cfg : config) :
  (k ≤ 19)%nat →
  run_all cfg =
  match run_upto k cfg with
  | (Finished, st) => run_from k cfg st
  | failed => failed
  end.
Proof.
  intros Hk. unfold run_all, run_upto, run_from.
  rewrite <- (take_drop k (notebook cfg)) at 1.
  rewrite run_cells_app, length_take.
  replace (0 + k `min` length (notebook cfg))%nat with k; [done|].
  change (length (notebook cfg)) with 19%nat. lia.
Qed.

Lemma run_all_from (k : nat) (cfg : config) (st : state) :
  (k ≤ 19)%nat → run_upto k cfg = (Finished, st) → run_all cfg = run_from k cfg st.
Proof. intros Hk H. by rewrite (run_all_split k cfg Hk), H. Qed.

Lemma quiet_not_persists ev : quiet ev = true → persists ev = false.
Proof. by destruct ev as [| | |[]]. Qed.

Lemma quiet_not_vqe_run ev : quiet ev = true → is_vqe_run ev = false.
Proof. by destruct ev as [| | |[]]. Qed.

Lemma snoc4 {A} (l : list A) a b c d :
  ((((l ++ [a]) ++ [b]) ++ [c]) ++ [d] = l ++ [a; b; c; d])%list.
Proof. by rewrite <- !app_assoc. Qed.

Lemma qubit_reduction_parity (mt : string) :
  qubit_reduction (VStr mt) = true ↔ mt = "parity".
Proof.
  unfold qubit_reduction, eq_str.
  destruct (String.eqb mt "parity") eqn:E.
  - apply String.eqb_eq in E. done.
  - apply String.eqb_neq in E. split; [done | by intros ?].
Qed.

End Split.

(** A hypothesis [run = (Finished, st)] on a run that has been stepped
    through. *)
Ltac finished :=
  lazymatch goal with
  | |- (Failed _ _, _) = (Finished, _) → _ => apply failed_inv
  | |- (Finished, _) = (Finished, _) → _ => apply finished_inv; intros <-
  end.

(** * The claims *)

(** ** The sampled-backend cell under [qasm = True] *)
Section BackendSetup.
Context {C : Carrier} {fw : Framework C}.

(** C10. When [qasm] is [True], as it is written in the notebook, the run
    ends with an error in the sampled-backend cell or before it: the
    statevector branch is not taken, nothing of the solver or of the time
    evolution is reached, [noise] and [qubit_mapper] are unbound, and when
    the cell itself is reached and its framework calls return, the error is
    the [NameError] for [noise]. *)
Theorem qasm_run_stops_at_backend_setup (cfg : config) :
  cfg_qasm cfg = true →
  ∃ k e,
    (run_all cfg).1 = Failed k e ∧
    (k ≤ at_backend_qasm)%nat ∧
    forallb (λ ev, negb (after_backend_setup ev || statevector_branch ev))
            (trace (run_all cfg).2) = true ∧
    globals (run_all cfg).2 !! "noise" = None ∧
    globals (run_all cfg).2 !! "qubit_mapper" = None ∧
    (k = at_backend_qasm → backend_calls_return → e = NameError "noise").
Proof.
  destruct cfg as [a b mt q]. cbn [cfg_qasm]. intros ->.
  list_cells.
  repeat step.
  all: cbn [fst snd trace globals].
  all: eexists _, _; split; [reflexivity|].
  all: split; [vm_compute; lia|].
  all: split; [vm_compute; reflexivity|].
  all: split; [lookup_tac|].
  all: split; [lookup_tac|].
  all: try (intros [=]; fail).
  all: intros _ ([? ?] & ? & ? & ? & ? & ? & ? & [? ?] & [? ?]); congruence.
Qed.

End BackendSetup.

Lemma qasm_run_stops_at_backend_setup_witness :
  cfg_qasm hardcoded = true ∧
  ∃ k e,
    (run_all (fw := Stub.framework) hardcoded).1 = Failed k e ∧
    (k ≤ at_backend_qasm)%nat ∧
    forallb (λ ev, negb (after_backend_setup ev || statevector_branch ev))
            (trace (run_all (fw := Stub.framework) hardcoded).2) = true ∧
    globals (run_all (fw := Stub.framework) hardcoded).2 !! "noise" = None ∧
    globals (run_all (fw := Stub.framework) hardcoded).2 !! "qubit_mapper" = None ∧
    (k = at_backend_qasm → backend_calls_return (fw := Stub.framework) →
     e = NameError "noise").
Proof.
  split; [reflexivity|].
  apply (qasm_run_stops_at_backend_setup (fw := Stub.framework) hardcoded).
  reflexivity.
Defined.

(** ** What a run stores *)
Section Persistence.
Context {C : Carrier} {fw : Framework C}.

(** C1, as the code has it.  A run stores at most one thing: the account
    token, through [IBMQ.save_account], and only when [qasm] is [True]; with
    [qasm = False] no event of the run stores anything. *)
Theorem only_save_account_persists (cfg : config) :
  List.filter persists (trace (run_all cfg).2) = [] ∨
  (cfg_qasm cfg = true ∧
   List.filter persists (trace (run_all cfg).2) =
   [Call (CSaveAccount account_token true)]).
Proof.
  rewrite (run_all_split (S at_run) cfg) by (vm_compute; lia).
  pose proof (run_from_after_run cfg) as Hrest.
  set (rest_of_run := run_from (S at_run) cfg) in *. clearbody rest_of_run.
  destruct cfg as [a b mt [|]]; cbn [cfg_qasm].
  all: list_cells.
  all: repeat step.
  all: cbv beta iota.
  all: lazymatch goal with
       | Hr : ∀ o tr st, _ → after_run o tr (?f st).2
         |- context [?f (State ?g ?tr)] =>
           left;
           destruct (Hr (g !! "results") tr (State g tr)) as [_ Hadded];
             [split; [reflexivity | apply added_refl]|];
           rewrite (added_filter quiet persists _ _ quiet_not_persists Hadded);
           vm_compute; reflexivity
       | _ =>
           cbn [snd trace];
           first [ left; vm_compute; reflexivity
                 | right; split; vm_compute; reflexivity ]
       end.
Qed.

End Persistence.

(** C1, as it is stated, fails: the run of the notebook as written, on a
    framework whose calls return, stores the account token. *)
Lemma hardcoded_run_persists :
  ¬ (∀ (C : Carrier) (fw : Framework C) (cfg : config),
       existsb persists (trace (run_all cfg).2) = false).
Proof.
  intros H. specialize (H Stub.carrier Stub.framework hardcoded).
  vm_compute in H. discriminate H.
Qed.

(** ** The operator builder *)
Section OperatorBuilder.
Context {C : Carrier} {fw : Framework C}.

(** C2. The flag [qubit_reduction] is [True] exactly for the mapping
    ['parity'], and in a run that gets through the operator cell the
    two-qubit-reduced operator is applied exactly in that case:
    [two_qubit_reduced_operator] is called exactly under ['parity'], and the
    operator that the cell leaves in [qubitOp] is then the chopped reduction
    of what [ferOp.mapping] returned, with the particle count of the
    molecule; under any other mapping it is what [ferOp.mapping] returned,
    chopped, with no reduction in between. *)
Theorem reduction_iff_parity (cfg : config) (st : state) :
  run_upto (S at_qubit_hamiltonian) cfg = (Finished, st) →
  (∀ v, qubit_reduction v = true ↔ v = VStr "parity") ∧
  (∃ b, globals st !! "qubit_reduction" = Some (VBool b) ∧
        (b = true ↔ cfg_map_type cfg = "parity")) ∧
  (existsb is_two_qubit_reduced (trace st) = true ↔ cfg_map_type cfg = "parity") ∧
  ∃ m mapped final,
    globals st !! "molecule" = Some (VMolecule m) ∧
    mapping {| h1 := one_body_integrals m; h2 := two_body_integrals m |}
            (cfg_map_type cfg) (float_lit 1 (-8)) = Returned mapped ∧
    globals st !! "qubitOp" = Some (VOperator final) ∧
    (cfg_map_type cfg = "parity" →
     ∃ reduced,
       two_qubit_reduced_operator mapped (num_alpha m + num_beta m) = Returned reduced ∧
       chop reduced (float_lit 1 (-10)) = Returned final) ∧
    (cfg_map_type cfg ≠ "parity" → chop mapped (float_lit 1 (-10)) = Returned final).
Proof.
  destruct cfg as [a b mt q]. cbn [cfg_map_type].
  list_cells.
  repeat step.
  all: finished.
  all: cbn [globals trace cfg_map_type] in *.
  all: split;
         [intros v; destruct v; try (split; [done | by intros [=]]);
          rewrite qubit_reduction_parity; split; [by intros -> | by intros [=]]|].
  all: split; [eexists; split; [lookup_ex|]|].
  all: try (rewrite <- qubit_reduction_parity; split; congruence).
  all: split;
         [rewrite <- qubit_reduction_parity;
          match goal with H : qubit_reduction _ = ?b |- _ => rewrite H end;
          vm_compute; split; congruence|].
  all: eexists _, _, _.
  all: split; [lookup_ex|].
  all: split; [eassumption|].
  all: split; [lookup_ex|].
  all: rewrite <- qubit_reduction_parity.
  all: match goal with H : qubit_reduction _ = ?b |- _ => rewrite H end.
  all: split; intros Hp; try done.
  all: eexists; split; eassumption.
Qed.

End OperatorBuilder.

Section OperatorBuilderOnStub.
#[local] Existing Instances Stub.carrier Stub.framework.

Lemma reduction_iff_parity_witness :
  run_upto (S at_qubit_hamiltonian) hardcoded =
    (Finished, (run_upto (S at_qubit_hamiltonian) hardcoded).2) ∧
  (∀ v, qubit_reduction v = true ↔ v = VStr "parity") ∧
  (∃ b, globals (run_upto (S at_qubit_hamiltonian) hardcoded).2 !! "qubit_reduction"
        = Some (VBool b) ∧
        (b = true ↔ cfg_map_type hardcoded = "parity")) ∧
  (existsb is_two_qubit_reduced (trace (run_upto (S at_qubit_hamiltonian) hardcoded).2)
   = true ↔ cfg_map_type hardcoded = "parity") ∧
  ∃ m mapped final,
    globals (run_upto (S at_qubit_hamiltonian) hardcoded).2 !! "molecule"
      = Some (VMolecule m) ∧
    mapping {| h1 := one_body_integrals m; h2 := two_body_integrals m |}
            (cfg_map_type hardcoded) (float_lit 1 (-8)) = Returned mapped ∧
    globals (run_upto (S at_qubit_hamiltonian) hardcoded).2 !! "qubitOp"
      = Some (VOperator final) ∧
    (cfg_map_type hardcoded = "parity" →
     ∃ reduced,
       two_qubit_reduced_operator mapped (num_alpha m + num_beta m) = Returned reduced ∧
       chop reduced (float_lit 1 (-10)) = Returned final) ∧
    (cfg_map_type hardcoded ≠ "parity" → chop mapped (float_lit 1 (-10)) = Returned final).
Proof.
  split; [vm_compute; reflexivity|].
  apply (reduction_iff_parity hardcoded).
  vm_compute; reflexivity.
Defined.

End OperatorBuilderOnStub.

(** ** Qubit counts *)
Section QubitCounts.
Context {C : Carrier} {fw : Framework C}.

(** C3. On a framework that keeps [qubit_count_contract], the operator that
    the operator cell leaves in [qubitOp] acts on as many qubits as there
    are spin orbitals, [num_orbitals * 2], and on two less under the
    ['parity'] mapping. *)
Theorem qubit_count (cfg : config) (st : state) :
  qubit_count_contract →
  run_upto (S at_qubit_hamiltonian) cfg = (Finished, st) →
  ∃ q n,
    globals st !! "qubitOp" = Some (VOperator q) ∧
    globals st !! "num_spin_orbitals" = Some (VInt n) ∧
    (∃ m, globals st !! "molecule" = Some (VMolecule m) ∧ n = num_orbitals m * 2) ∧
    num_qubits q = if String.eqb (cfg_map_type cfg) "parity" then n - 2 else n.
Proof.
  intros (Hmapping & Hreduced & Hchop).
  destruct cfg as [a b mt q]. cbn [cfg_map_type].
  list_cells.
  repeat step.
  all: finished.
  all: cbn [globals trace cfg_map_type] in *.
  all: eexists _, _.
  all: split; [lookup_ex|].
  all: split; [lookup_ex|].
  all: split; [eexists; split; [lookup_ex|reflexivity]|].
  all: repeat match goal with
       | Hd : driver_run _ = Returned _, H : mapping _ _ _ = Returned _ |- _ =>
           apply (Hmapping _ _ _ _ _ Hd) in H
       | H : two_qubit_reduced_operator _ _ = Returned _ |- _ => apply Hreduced in H
       | H : chop _ _ = Returned _ |- _ => apply Hchop in H
       end.
  all: match goal with H : qubit_reduction _ = _ |- _ =>
         unfold qubit_reduction, eq_str in H end.
  all: destruct (String.eqb mt "parity"); try discriminate.
  all: lia.
Qed.

(** C4. When the variational form has been set up, the Hartree-Fock state
    and the UCCSD form were both built on [qubitOp.num_qubits], and the form
    starts from that Hartree-Fock state. *)
Theorem initial_state_and_ansatz_on_operator_qubits (cfg : config) (st : state) :
  run_upto (S at_var_form) cfg = (Finished, st) →
  ∃ q hf vf,
    globals st !! "qubitOp" = Some (VOperator q) ∧
    globals st !! "HF_state" = Some (VHartreeFock hf) ∧
    globals st !! "var_form" = Some (VUCCSD vf) ∧
    hf_num_qubits hf = num_qubits q ∧
    vf_num_qubits vf = num_qubits q ∧
    vf_initial_state vf = hf.
Proof.
  destruct cfg as [a b mt q].
  list_cells.
  repeat step.
  all: finished.
  all: cbn [globals].
  all: eexists _, _, _.
  all: split; [lookup_ex|].
  all: split; [lookup_ex|].
  all: split; [lookup_ex|].
  all: done.
Qed.

End QubitCounts.

Section QubitCountsOnStub.
#[local] Existing Instances Stub.carrier Stub.framework.

Lemma stub_qubit_count_contract : qubit_count_contract.
Proof.
  repeat split.
  - intros d m mt thr q [= <-]. simpl. case_decide; [|done]. by intros [= <-].
  - intros q n q' [= <-]. reflexivity.
  - intros q thr q' [= <-]. reflexivity.
Qed.

Lemma qubit_count_witness :
  qubit_count_contract ∧
  run_upto (S at_qubit_hamiltonian) hardcoded =
    (Finished, (run_upto (S at_qubit_hamiltonian) hardcoded).2) ∧
  ∃ q n,
    globals (run_upto (S at_qubit_hamiltonian) hardcoded).2 !! "qubitOp"
      = Some (VOperator q) ∧
    globals (run_upto (S at_qubit_hamiltonian) hardcoded).2 !! "num_spin_orbitals"
      = Some (VInt n) ∧
    (∃ m, globals (run_upto (S at_qubit_hamiltonian) hardcoded).2 !! "molecule"
            = Some (VMolecule m) ∧ n = num_orbitals m * 2) ∧
    num_qubits q = if String.eqb (cfg_map_type hardcoded) "parity" then n - 2 else n.
Proof.
  split; [exact stub_qubit_count_contract|].
  split; [vm_compute; reflexivity|].
  apply (qubit_count hardcoded).
  - exact stub_qubit_count_contract.
  - vm_compute; reflexivity.
Defined.

Lemma initial_state_and_ansatz_on_operator_qubits_witness :
  run_upto (S at_var_form) hardcoded =
    (Finished, (run_upto (S at_var_form) hardcoded).2) ∧
  ∃ q hf vf,
    globals (run_upto (S at_var_form) hardcoded).2 !! "qubitOp" = Some (VOperator q) ∧
    globals (run_upto (S at_var_form) hardcoded).2 !! "HF_state" = Some (VHartreeFock hf) ∧
    globals (run_upto (S at_var_form) hardcoded).2 !! "var_form" = Some (VUCCSD vf) ∧
    hf_num_qubits hf = num_qubits q ∧
    vf_num_qubits vf = num_qubits q ∧
    vf_initial_state vf = hf.
Proof.
  split; [vm_compute; reflexivity|].
  apply (initial_state_and_ansatz_on_operator_qubits hardcoded).
  vm_compute; reflexivity.
Defined.

End QubitCountsOnStub.

(** ** The solver cell and its reports *)
Section Results.
Context {C : Carrier} {fw : Framework C}.

(** C8. A run that gets through the solver cell has called [vqe.run] once,
    on the [vqe] and the [quantum_instance] that are bound, and [results] is
    what that call returned; the energy reported is its first eigenvalue,
    and the total reported is that eigenvalue plus
    [molecule.nuclear_repulsion_energy]; in the rest of the run [results]
    stays bound to that value, the solver is not run again and nothing more
    is printed. *)
Theorem total_energy_and_results (cfg : config) (st : state) :
  run_upto (S at_run) cfg = (Finished, st) →
  ∃ m a qi r e rest before,
    globals st !! "molecule" = Some (VMolecule m) ∧
    globals st !! "vqe" = Some (VVQE a) ∧
    globals st !! "quantum_instance" = Some (VQuantumInstance qi) ∧
    vqe_run a qi = Returned r ∧
    globals st !! "results" = Some (VResults r) ∧
    eigvals r = e :: rest ∧
    trace st =
      (before ++
       [Call CVqeRun;
        Print "The computed ground state energy is: {:.12f}" (Some (VFloat e));
        Print "The total ground state energy is: {:.12f}"
              (Some (VFloat (fadd e (nuclear_repulsion_energy m))));
        Print "Parameters: {}" (Some (VArray1 (opt_params r)))])%list ∧
    forallb (λ ev, negb (is_vqe_run ev)) before = true ∧
    globals (run_all cfg).2 !! "results" = Some (VResults r) ∧
    added quiet (trace st) (run_all cfg).2.
Proof.
  intros H.
  rewrite (run_all_from (S at_run) cfg st) by first [exact H | vm_compute; lia].
  pose proof (run_from_after_run cfg) as Hrest.
  set (rest_of_run := run_from (S at_run) cfg) in *. clearbody rest_of_run.
  revert H.
  destruct cfg as [a b mt q].
  list_cells.
  repeat step.
  all: finished.
  all: cbn [globals trace].
  all: eexists _, _, _, _, _, _, _.
  all: split; [lookup_ex|].
  all: split; [lookup_ex|].
  all: split; [lookup_ex|].
  all: split; [eassumption|].
  all: split; [lookup_ex|].
  all: split; [eassumption|].
  all: repeat match goal with
       | H1 : ?l = _ :: _, H2 : ?l = _ :: _ |- _ =>
           rewrite H1 in H2; injection H2 as <- <-
       end.
  all: split; [apply snoc4|].
  all: split; [vm_compute; reflexivity|].
  all: lazymatch goal with
       | Hr : ∀ o tr st, _ → after_run o tr (?f st).2
         |- context [?f (State ?g ?tr)] =>
           split;
           [apply (Hr (Some (VResults _)) tr (State g tr))
           |apply (Hr (g !! "results") tr (State g tr))];
           (split; [first [lookup_ex | reflexivity] | apply added_refl])
       end.
Qed.

End Results.

Section ResultsOnStub.
#[local] Existing Instances Stub.carrier Stub.framework.

Lemma total_energy_and_results_witness :
  run_upto (S at_run) Stub.exact = (Finished, (run_upto (S at_run) Stub.exact).2) ∧
  ∃ m a qi r e rest before,
    globals (run_upto (S at_run) Stub.exact).2 !! "molecule" = Some (VMolecule m) ∧
    globals (run_upto (S at_run) Stub.exact).2 !! "vqe" = Some (VVQE a) ∧
    globals (run_upto (S at_run) Stub.exact).2 !! "quantum_instance"
      = Some (VQuantumInstance qi) ∧
    vqe_run a qi = Returned r ∧
    globals (run_upto (S at_run) Stub.exact).2 !! "results" = Some (VResults r) ∧
    eigvals r = e :: rest ∧
    trace (run_upto (S at_run) Stub.exact).2 =
      (before ++
       [Call CVqeRun;
        Print "The computed ground state energy is: {:.12f}" (Some (VFloat e));
        Print "The total ground state energy is: {:.12f}"
              (Some (VFloat (fadd e (nuclear_repulsion_energy m))));
        Print "Parameters: {}" (Some (VArray1 (opt_params r)))])%list ∧
    forallb (λ ev, negb (is_vqe_run ev)) before = true ∧
    globals (run_all Stub.exact).2 !! "results" = Some (VResults r) ∧
    added quiet (trace (run_upto (S at_run) Stub.exact).2) (run_all Stub.exact).2.
Proof.
  split; [vm_compute; reflexivity|].
  apply (total_energy_and_results Stub.exact).
  vm_compute; reflexivity.
Defined.

End ResultsOnStub.

(** ** The time-evolution sweep *)
Section Sweep.
Context {C : Carrier} {fw : Framework C}.

(** *** Row assignment *)

Lemma set_row_fits (a : ndarray2) (i : Z) (v : list complex) :
  0 ≤ i < Z.of_nat (length (rows a)) → length v = ncols a →
  set_row a i v =
  Returned {| ncols := ncols a; rows := <[Z.to_nat i := map cast_float64 v]> (rows a) |}.
Proof.
  intros Hi Hv. unfold set_row.
  rewrite decide_True by done. by rewrite decide_True by done.
Qed.

Lemma set_row_other (a a' : ndarray2) (i : Z) (v : list complex) (j : nat) :
  set_row a i v = Returned a' → j ≠ Z.to_nat i → rows a' !! j = rows a !! j.
Proof.
  unfold set_row. intros H Hj.
  repeat case_decide; try discriminate.
  - injection H as <-. simpl. by rewrite list_lookup_insert_ne.
  - destruct v as [|z [|]]; try discriminate.
    injection H as <-. simpl. by rewrite list_lookup_insert_ne.
Qed.

(** What a row holds after an assignment that fits: the real parts. *)
Lemma set_row_stores_real_parts (a a' : ndarray2) (i : Z) (v : list complex) :
  set_row a i v = Returned a' → length v = ncols a →
  rows a' !! Z.to_nat i = Some (map fst v).
Proof.
  unfold set_row. intros H Hv.
  case_decide as Hi; [|discriminate].
  rewrite decide_True in H by done. injection H as <-. simpl.
  apply list_lookup_insert_eq. lia.
Qed.

(** *** Loops *)

Lemma wp_for_range_S {B} start k (body : Z → Py unit) (f : unit → Py B) Q st :
  wp (body start ≫= λ _, for_range_from (start + 1) k body ≫= f) Q st →
  wp (for_range_from start (S k) body ≫= f) Q st.
Proof. intros H. by apply wp_assoc in H. Qed.

Lemma wp_preserved {A} (I : state → Prop) (m : Py A) (Q : outcome A → state → Prop) st :
  preserves I m → I st → (∀ o st', I st' → Q o st') → wp m Q st.
Proof. intros Hm Hst HQ. apply HQ. by apply Hm. Qed.

Lemma preserves_for_range_from_ge I (start : Z) count (body : Z → Py unit) :
  (∀ i : Z, (start ≤ i)%Z → preserves I (body i)) →
  preserves I (for_range_from start count body).
Proof.
  revert start. induction count as [|k IH]; intros start Hbody; simpl.
  - apply preserves_ret.
  - apply preserves_bind; [apply Hbody; lia|].
    intros _. apply IH. intros i Hi. apply Hbody. lia.
Qed.

(** *** The later iterations leave row 0 alone *)

Lemma sweep_body_keeps_row_zero q c qi k x (i : Z) :
  (1 ≤ i)%Z → preserves (sweeping q c qi k x) (sweep_body i).
Proof.
  intros Hi [g tr] (Hnp & Hq & Hc & Hk & Hqi & a & Ha & Hrow).
  unfold bound in *. cbn [globals] in *.
  change (wp (sweep_body i) (λ _ st', sweeping q c qi k x st') (State g tr)).
  repeat step.
  all: unfold sweeping, row_zero_is, bound; cbn [globals].
  all: repeat (split; [lookup_tac|]).
  all: eexists; (split; [lookup_ex|]).
  all: try assumption.
  all: erewrite set_row_other; [eassumption|eassumption|lia].
Qed.

Lemma np_zeros_shape (r c : Z) :
  (0 ≤ r)%Z → (0 ≤ c)%Z →
  np_zeros r c =
  Returned {| ncols := Z.to_nat c;
              rows := replicate (Z.to_nat r) (replicate (Z.to_nat c) fzero) |}.
Proof. intros Hr Hc. unfold np_zeros. rewrite decide_False by lia. done. Qed.

Lemma of_real_real_parts (v : list complex) :
  Forall (λ z, z.2 = fzero) v → map of_real (map cast_float64 v) = v.
Proof.
  induction 1 as [|[re im] v Hz _ IH]; [done|].
  simpl in *. rewrite IH. unfold of_real. by rewrite Hz.
Qed.

Lemma sweeping_assign q c qi k x (y : string) :
  y ≠ "np" → y ≠ "qubitOp" → y ≠ "initial_circuit" → y ≠ "num_time_slices" →
  y ≠ "quantum_instance" → y ≠ "statevector_of_t" →
  stable_assign (sweeping q c qi k x) y.
Proof.
  intros ? ? ? ? ? ? v g tr (H1 & H2 & H3 & H4 & H5 & a & H6 & H7).
  repeat split; try by apply bound_assign.
  exists a. split; [by apply bound_assign | done].
Qed.

Lemma sweeping_emit q c qi k x ev : stable_emit (sweeping q c qi k x) ev.
Proof. by intros g tr. Qed.

End Sweep.

(** Equations between outcomes of the same call, and the two NumPy calls
    whose arguments are known to fit. *)
Ltac known :=
  repeat match goal with
  | H : np_zeros _ _ = _ |- _ =>
      rewrite np_zeros_shape in H by lia; first [discriminate H | injection H as <-]
  | H : set_row _ _ _ = _ |- _ =>
      rewrite set_row_fits in H
        by (simpl; rewrite ?length_replicate; lia);
      first [discriminate H | injection H as <-]
  | H' : ?r = Returned _, H : ?r = Returned _ |- _ =>
      rewrite H' in H; injection H as <-
  | H' : ?r = Returned _, H : ?r = Raised _ |- _ =>
      rewrite H' in H; discriminate H
  | H' : match ?r with Returned _ => _ | Raised _ => _ end = _, H : ?r = _ |- _ =>
      rewrite H in H'; try discriminate H'
  end.

(** The first iteration of a [for] loop over a range that is not empty. *)
Ltac enter_loop :=
  lazymatch goal with
  | |- wp (for_range ?m _ ≫= _) _ _ =>
      unfold for_range;
      let E := fresh "E" in
      destruct (Z.to_nat m) eqn:E; [lia | apply wp_for_range_S]
  end.

Section SweepAtZero.
Context {C : Carrier} {fw : Framework C}.

(** A run that reaches the sweep cell reaches it with the names the cell
    reads bound: a horizon of 100, 10 time slices, and the qubit count of
    the operator. *)
Lemma sweep_inputs_of_run (cfg : config) (st : state) :
  run_upto at_sweep cfg = (Finished, st) →
  ∃ q c qi, sweep_inputs st q c qi 10 (num_qubits q) 100.
Proof.
  destruct cfg as [a b mt q].
  list_cells.
  repeat step.
  all: finished.
  all: eexists _, _, _.
  all: unfold sweep_inputs, bound; cbn [globals].
  all: repeat split; lookup_ex.
Qed.

(** Where a row has room for the statevector.  On a framework for which
    evolving by time zero does not change the statevector, and when the
    reference statevector has as many amplitudes as a row has places and no
    imaginary parts, row 0 of [statevector_of_t] after the sweep cell is the
    statevector of the unevolved Hartree-Fock circuit. *)
Theorem sweep_entry_zero (st : state) q c qi (k n T : Z) ec ref :
  sweep_inputs st q c qi k n T →
  (0 < T)%Z → (0 ≤ n)%Z →
  evolution_by_zero_is_identity →
  evolve q c 0 "circuit" k "trotter" = Returned ec →
  statevector_of qi c = Returned ref →
  length ref = Z.to_nat (2 * n) →
  Forall (λ z, z.2 = fzero) ref →
  ∃ a row,
    globals (cell_sweep st).2 !! "statevector_of_t" = Some (VArray2 a) ∧
    rows a !! 0%nat = Some row ∧
    map of_real row = ref.
Proof.
  intros (Hnp & HT & Hn & Hq & Hc & Hk & Hqi) HTpos Hnn Hid Hev Href Hlen Hreal.
  destruct st as [g tr]. unfold bound in *. cbn [globals] in *.
  assert (Hsv : statevector_of qi ec = Returned ref) by (by rewrite (Hid _ _ _ _ _ Hev)).
  unfold statevector_of in Hsv.
  change (wp cell_sweep
            (λ _ st', ∃ a row, globals st' !! "statevector_of_t" = Some (VArray2 a) ∧
                               rows a !! 0%nat = Some row ∧ map of_real row = ref)
            (State g tr)).
  repeat (first [enter_loop | step]; known).
  apply (wp_preserved (sweeping q c qi k (map cast_float64 ref))).
  - apply preserves_bind.
    + apply preserves_for_range_from_ge. intros i Hi.
      apply sweep_body_keeps_row_zero. lia.
    + intros _. preserve.
      all: first [by apply sweeping_assign | apply sweeping_emit].
  - unfold sweeping, row_zero_is, bound. cbn [globals].
    repeat (split; [lookup_tac|]).
    eexists. split; [lookup_ex|]. simpl. done.
  - intros _ [g' tr'] (_ & _ & _ & _ & _ & arr & Harr & Hrow).
    exists arr, (map cast_float64 ref). repeat split; try done.
    by apply of_real_real_parts.
Qed.

End SweepAtZero.

Section SweepOnStub.
#[local] Existing Instances Stub.carrier Stub.framework.

Lemma stub_evolution_by_zero_is_identity : evolution_by_zero_is_identity.
Proof.
  intros q [n t] k qi ec [= <-]. unfold statevector_of. simpl.
  by rewrite Z.add_0_r.
Qed.

Lemma sweep_entry_zero_witness :
  sweep_inputs Stub.before_sweep 2 (2, 0) Stub.statevector_instance 10 2 100 ∧
  (0 < 100)%Z ∧ (0 ≤ 2)%Z ∧
  evolution_by_zero_is_identity ∧
  evolve 2 (2, 0) 0 "circuit" 10 "trotter" = Returned (2, 0) ∧
  statevector_of Stub.statevector_instance (2, 0) =
    Returned [(0, 0); (1, 0); (0, 0); (0, 0)] ∧
  length [(0, 0); (1, 0); (0, 0); (0, 0)] = Z.to_nat (2 * 2) ∧
  Forall (λ z : complex, z.2 = fzero) [(0, 0); (1, 0); (0, 0); (0, 0)] ∧
  ∃ a row,
    globals (cell_sweep Stub.before_sweep).2 !! "statevector_of_t" = Some (VArray2 a) ∧
    rows a !! 0%nat = Some row ∧
    map of_real row = [(0, 0); (1, 0); (0, 0); (0, 0)].
Proof.
  pose proof stub_evolution_by_zero_is_identity as Hid.
  assert (sweep_inputs Stub.before_sweep 2 (2, 0) Stub.statevector_instance 10 2 100)
    as Hin by (repeat split; vm_compute; reflexivity).
  assert (Forall (λ z : complex, z.2 = fzero) [(0, 0); (1, 0); (0, 0); (0, 0)])
    as Hreal by (repeat constructor).
  refine (conj Hin (conj _ (conj _ (conj Hid (conj _ (conj _ (conj _ (conj Hreal _)))))))).
  1-5: first [lia | vm_compute; reflexivity].
  apply (sweep_entry_zero Stub.before_sweep 2 (2, 0) Stub.statevector_instance
           10 2 100 (2, 0) [(0, 0); (1, 0); (0, 0); (0, 0)] Hin);
    first [exact Hid | exact Hreal | lia | vm_compute; reflexivity].
Defined.

(** C6, at an input where it fails.  With the Jordan-Wigner mapping the
    operator of the hydrogen molecule acts on four qubits, and the run
    reaches the sweep cell.  The framework evolves by time zero as the
    identity, and the unevolved Hartree-Fock circuit has a statevector of
    [2 ^ 4 = 16] amplitudes, the second of which is 1.  A row of
    [statevector_of_t] has [2 * 4 = 8] places: the assignment of the
    iteration for [evo_t = 0] raises [ValueError], the run ends there, and
    row 0 is left as [np.zeros] made it, which is not the reference
    statevector. *)
Lemma sweep_entry_zero_lost_on_four_qubits :
  evolution_by_zero_is_identity ∧
  (run_upto at_sweep Stub.exact_jordan_wigner).1 = Finished ∧
  sweep_inputs Stub.before_sweep_jordan_wigner 4 (4, 0) Stub.statevector_instance 10 4 100 ∧
  statevector_of Stub.statevector_instance (4, 0) = Returned (Stub.amplitudes (4, 0)) ∧
  length (Stub.amplitudes (4, 0)) = 16%nat ∧
  Stub.amplitudes (4, 0) !! 1%nat = Some (1, 0) ∧
  (run_all Stub.exact_jordan_wigner).1 =
    Failed at_sweep (ValueError "could not broadcast input array") ∧
  ∃ a,
    globals (run_all Stub.exact_jordan_wigner).2 !! "statevector_of_t" = Some (VArray2 a) ∧
    ncols a = 8%nat ∧
    rows a !! 0%nat = Some [0; 0; 0; 0; 0; 0; 0; 0] ∧
    map of_real [0; 0; 0; 0; 0; 0; 0; 0] ≠ Stub.amplitudes (4, 0).
Proof.
  split; [exact stub_evolution_by_zero_is_identity|].
  split; [vm_compute; reflexivity|].
  split; [repeat split; vm_compute; reflexivity|].
  split; [vm_compute; reflexivity|].
  split; [vm_compute; reflexivity|].
  split; [vm_compute; reflexivity|].
  split; [vm_compute; reflexivity|].
  eexists. split; [vm_compute; reflexivity|].
  split; [vm_compute; reflexivity|].
  split; [vm_compute; reflexivity|].
  vm_compute. discriminate.
Qed.

(** C7, at an input where it fails.  In the run of the stand-in framework
    on the statevector simulator, the statevector returned at time index 1
    has an amplitude with imaginary part 1, and row 1 of [statevector_of_t]
    is all zero: the row does not hold the amplitudes that were returned. *)
Lemma sweep_row_drops_imaginary_parts :
  (run_all Stub.exact).1 = Finished ∧
  statevector_of Stub.statevector_instance (2, 1) =
    Returned [(0, 0); (0, 1); (0, 0); (0, 0)] ∧
  ∃ a, globals (run_all Stub.exact).2 !! "statevector_of_t" = Some (VArray2 a) ∧
       rows a !! 1%nat = Some [0; 0; 0; 0] ∧
       map of_real [0; 0; 0; 0] ≠ [(0, 0); (0, 1); (0, 0); (0, 0)].
Proof.
  split; [vm_compute; reflexivity|].
  split; [vm_compute; reflexivity|].
  eexists. split; [vm_compute; reflexivity|].
  split; [vm_compute; reflexivity|].
  vm_compute. discriminate.
Qed.

(** With the Jordan-Wigner mapping there are four qubits: a row has [2 * 4]
    places for [2 ^ 4] amplitudes, and the first assignment of the sweep
    raises. *)
Lemma sweep_raises_on_four_qubits :
  (run_all Stub.exact_jordan_wigner).1 =
  Failed at_sweep (ValueError "could not broadcast input array").
Proof. vm_compute; reflexivity. Qed.

End SweepOnStub.

(** * More of the notebook *)

(** ** The sweep, in full *)
Section SweepInFull.
Context {C : Carrier} {fw : Framework C}.

Lemma wp_mono {A} (m : Py A) (Q1 Q2 : outcome A → state → Prop) st :
  wp m Q1 st → (∀ o st', Q1 o st' → Q2 o st') → wp m Q2 st.
Proof. unfold wp. auto. Qed.

Lemma wp_bind {A B} (m : Py A) (f : A → Py B) Q st :
  wp m (λ o st', match o with
                 | Returned a => wp (f a) Q st'
                 | Raised e => Q (Raised e) st'
                 end) st →
  wp (m ≫= f) Q st.
Proof. unfold wp, mbind, Py_bind. by destruct (m st) as [[a|e] st']. Qed.

(** A loop with an invariant that depends on the index. *)
Lemma wp_for_range_from {B} (Inv : Z → state → Prop) (body : Z → Py unit)
    (f : unit → Py B) Q (start : Z) (count : nat) st :
  Inv start st →
  (∀ i st, (start ≤ i < start + Z.of_nat count)%Z → Inv i st →
     wp (body i) (λ o st', match o with
                           | Returned _ => Inv (i + 1) st'
                           | Raised e => Q (Raised e) st'
                           end) st) →
  (∀ st', Inv (start + Z.of_nat count) st' → wp (f tt) Q st') →
  wp (for_range_from start count body ≫= f) Q st.
Proof.
  revert start st. induction count as [|k IH]; intros start st Hst Hbody Hf.
  - apply wp_ret. apply Hf. by rewrite Z.add_0_r.
  - apply wp_for_range_S. apply wp_bind.
    eapply wp_mono; [apply (Hbody start st); [lia | done]|].
    intros [[]|e] st' H; [|done].
    apply IH; [done| |].
    + intros i st'' Hi. apply Hbody. lia.
    + intros st'' Hst''. apply Hf.
      by replace (start + Z.of_nat (S k)) with (start + 1 + Z.of_nat k) by lia.
Qed.

(** *** Row assignment, in full *)

Lemma set_row_written (a a' : ndarray2) (i : Z) (v : list complex) :
  set_row a i v = Returned a' →
  (0 ≤ i < Z.of_nat (length (rows a)))%Z ∧
  ncols a' = ncols a ∧
  length (rows a') = length (rows a) ∧
  (∀ j, j ≠ Z.to_nat i → rows a' !! j = rows a !! j) ∧
  ∃ row, rows a' !! Z.to_nat i = Some row ∧ row_written (ncols a) v row.
Proof.
  unfold set_row. intros H.
  case_decide as Hi; [|discriminate]. split; [done|].
  case_decide as Hv.
  - injection H as <-. simpl. rewrite length_insert.
    repeat split; [|].
    + intros j Hj. by rewrite list_lookup_insert_ne.
    + eexists. split; [apply list_lookup_insert_eq; lia|]. by left.
  - destruct v as [|z [|]]; try discriminate.
    injection H as <-. simpl. rewrite length_insert.
    repeat split; [|].
    + intros j Hj. by rewrite list_lookup_insert_ne.
    + eexists. split; [apply list_lookup_insert_eq; lia|]. right. eauto.
Qed.

Lemma set_row_shape_error (a : ndarray2) (i : Z) (v : list complex) :
  (0 ≤ i < Z.of_nat (length (rows a)))%Z →
  length v ≠ ncols a → length v ≠ 1%nat →
  set_row a i v = Raised (ValueError "could not broadcast input array").
Proof.
  intros Hi Hv H1. unfold set_row.
  rewrite decide_True by done. rewrite decide_False by done.
  by destruct v as [|z [|]].
Qed.

Lemma flat_map_seqZ_succ {A} (f : Z → list A) (i : Z) :
  (0 ≤ i)%Z → flat_map f (seqZ 0 (i + 1)) = (flat_map f (seqZ 0 i) ++ f i)%list.
Proof.
  intros Hi. rewrite seqZ_app by lia. rewrite flat_map_app.
  rewrite (seqZ_cons (0 + i) 1) by lia. simpl. by rewrite app_nil_r.
Qed.

Lemma recorded_other q c qi k (a a' : ndarray2) (t : Z) :
  ncols a' = ncols a → rows a' !! Z.to_nat t = rows a !! Z.to_nat t →
  recorded q c qi k a t → recorded q c qi k a' t.
Proof.
  intros Hc Hr (ec & sv & row & ? & ? & ? & ?).
  exists ec, sv, row. rewrite Hc, Hr. done.
Qed.

Lemma sweep_body_step q c qi k n T plt tr (i : Z) g tr' :
  (0 ≤ i)%Z →
  sweep_at q c qi k n T plt tr i (State g tr') →
  wp (sweep_body i)
     (λ o st', o = Returned tt → sweep_at q c qi k n T plt tr (i + 1) st')
     (State g tr').
Proof.
  intros Hi (Hnp & Hplt & Hmax & Hq & Hc & Hk & Hqi & Htr & a & Ha & Hw & Hlen & Hrec).
  unfold bound in *. cbn [globals trace] in *. subst tr'.
  repeat step.
  all: try (intros [=]; fail).
  intros _.
  match goal with H : set_row _ _ _ = Returned _ |- _ =>
    apply set_row_written in H as (Hin & Hw' & Hlen' & Hother & row & Hrow & Hwritten) end.
  unfold sweep_at, bound. cbn [globals trace].
  repeat (split; [lookup_tac|]).
  split.
  { rewrite flat_map_seqZ_succ by done. unfold sweep_calls at 2.
    by rewrite <- !app_assoc. }
  eexists. split; [lookup_ex|].
  split; [congruence|]. split; [congruence|].
  intros t Ht. destruct (decide (t = i)) as [->|Hne].
  - eexists _, _, _. split; [eassumption|]. split.
    + unfold statevector_of.
      match goal with H : execute _ _ = Returned _ |- _ => rewrite H end.
      eassumption.
    + split; [eassumption|]. by rewrite Hw'.
  - apply (recorded_other q c qi k a); [done| |apply Hrec; lia].
    apply Hother. lia.
Qed.

Lemma column_returned (a : ndarray2) (j : nat) (col : list scalar) :
  column a j = Returned col →
  (j < ncols a)%nat ∧ col = map (λ row, default fzero (row !! j)) (rows a).
Proof. unfold column. case_decide; [|done]. by intros [= <-]. Qed.

Lemma cell_sweep_returned (st : state) q c qi (k n T : Z) :
  sweep_inputs st q c qi k n T →
  (cell_sweep st).1 = Returned tt →
  swept_all q c qi k n T (trace st) (cell_sweep st).2 ∧ (2 ≤ n)%Z ∧ (0 ≤ T)%Z.
Proof.
  intros (Hnp & HT & Hn & Hq & Hc & Hk & Hqi).
  destruct st as [g tr]. unfold bound in *. cbn [globals trace] in *.
  destruct (g !! "plt") as [plt|] eqn:Hplt.
  all: change (wp cell_sweep
            (λ o st', o = Returned tt →
                      swept_all q c qi k n T tr st' ∧ (2 ≤ n)%Z ∧ (0 ≤ T)%Z)
            (State g tr)).
  all: unfold cell_sweep.
  all: repeat (lazymatch goal with
               | |- wp (for_range _ _ ≫= _) _ _ => fail
               | _ => step
               end).
  all: try (intros [=]; fail).
  all: match goal with H : np_zeros _ _ = Returned _ |- _ =>
         unfold np_zeros in H; case_decide as Hneg; [discriminate H|];
         injection H as <- end.
  all: unfold for_range.
  all: lazymatch goal with
       | Hp : _ !! "plt" = ?o |- _ =>
           apply (wp_for_range_from (sweep_at q c qi k n T o tr))
       end.
  all: try (intros i [g' tr'] Hi Hinv;
            eapply wp_mono; [apply sweep_body_step; [lia | exact Hinv]|];
            intros [[]|e] st' H; [by apply H | by intros [=]]).
  all: try (unfold sweep_at, bound; cbn [globals trace ncols rows];
            repeat (split; [lookup_tac|]);
            split; [by rewrite app_nil_r|];
            eexists; split; [lookup_ex|]; cbn [ncols rows];
            rewrite length_replicate; repeat split; intros; lia).
  all: intros [g' tr']
         (Hnp' & Hplt' & Hmax' & Hq' & Hc' & Hk' & Hqi' & Htr' & a & Ha & Hw & Hlen & Hrec).
  all: unfold bound in *; cbn [globals trace] in *.
  all: replace (0 + Z.of_nat (Z.to_nat T))%Z with T in * by lia.
  all: subst tr'.
  all: repeat step.
  all: try (intros [=]; fail).
  intros _.
  repeat match goal with H : column _ _ = Returned _ |- _ =>
    apply column_returned in H as [? ->] end.
  split; [|lia].
  exists a. unfold bound. cbn [globals trace].
  split; [lookup_ex|]. repeat split; try done.
  by rewrite <- !app_assoc.
Qed.

Lemma filter_evolve_sweep_calls (ts : list Z) (rest : list event) :
  forallb (λ ev, negb (is_evolve ev)) rest = true →
  List.filter is_evolve (flat_map sweep_calls ts ++ rest)%list =
  map (λ t, Call (CEvolve t)) ts.
Proof.
  intros Hrest. induction ts as [|t ts IH]; simpl.
  - induction rest as [|ev rest IH]; [done|]. simpl in *.
    apply andb_true_iff in Hrest as [Hev Hrest].
    apply negb_true_iff in Hev. rewrite Hev. by apply IH.
  - by rewrite IH.
Qed.

(** X1. When the sweep cell returns, [statevector_of_t] has [max_time] rows
    of [2 * num_qubits] places, and every row [t] was written from the
    statevector of the circuit evolved for time [t]. *)
Theorem sweep_records_every_time (st : state) q c qi (k n T : Z) :
  sweep_inputs st q c qi k n T →
  (cell_sweep st).1 = Returned tt →
  ∃ a,
    globals (cell_sweep st).2 !! "statevector_of_t" = Some (VArray2 a) ∧
    length (rows a) = Z.to_nat T ∧
    ncols a = Z.to_nat (2 * n) ∧
    ∀ t, (0 ≤ t < T)%Z → recorded q c qi k a t.
Proof.
  intros Hin Hret.
  destruct (cell_sweep_returned st q c qi k n T Hin Hret)
    as [(a & Ha & Hw & Hlen & Hrec & _) _].
  by exists a.
Qed.

(** X2. When the sweep cell returns, it has called [qubitOp.evolve] once for
    each time 0, 1, ..., [max_time - 1], in this order, and for no other
    time. *)
Theorem sweep_evolves_each_time_in_order (st : state) q c qi (k n T : Z) :
  sweep_inputs st q c qi k n T →
  (cell_sweep st).1 = Returned tt →
  ∃ l, trace (cell_sweep st).2 = (trace st ++ l)%list ∧
       List.filter is_evolve l = map (λ t, Call (CEvolve t)) (seqZ 0 T).
Proof.
  intros Hin Hret.
  destruct (cell_sweep_returned st q c qi k n T Hin Hret)
    as [(a & _ & _ & _ & _ & Htr) _].
  eexists. split; [exact Htr|].
  by apply filter_evolve_sweep_calls.
Qed.

(** X3. The sweep cell returns only when there are at least two qubits: the
    figures read columns 0 to 3 of an array with [2 * num_qubits] columns. *)
Theorem sweep_returns_only_with_four_columns (st : state) q c qi (k n T : Z) :
  sweep_inputs st q c qi k n T →
  (cell_sweep st).1 = Returned tt →
  (2 ≤ n)%Z.
Proof.
  intros Hin Hret.
  by destruct (cell_sweep_returned st q c qi k n T Hin Hret) as (_ & ? & _).
Qed.

(** X4. The last things the sweep cell does are the two figures: the first
    shows columns 0 to 3 of [statevector_of_t], the second the absolute
    values of the same stored numbers. *)
Theorem figures_show_stored_rows (st : state) q c qi (k n T : Z) :
  sweep_inputs st q c qi k n T →
  (cell_sweep st).1 = Returned tt →
  ∃ a before,
    globals (cell_sweep st).2 !! "statevector_of_t" = Some (VArray2 a) ∧
    trace (cell_sweep st).2 =
      (before ++
       [Figure 1 (first_four_columns a); Display "plt.show";
        Figure 2 (map (map fabs) (first_four_columns a)); Display "plt.show"])%list.
Proof.
  intros Hin Hret.
  destruct (cell_sweep_returned st q c qi k n T Hin Hret)
    as [(a & Ha & _ & _ & _ & Htr) _].
  exists a. eexists. split; [exact Ha|].
  rewrite Htr. by rewrite app_assoc.
Qed.

(** X5. When the statevector for time 0 has neither [2 * num_qubits]
    amplitudes nor one, the sweep cell raises [ValueError] in its first
    iteration, with the array still all zero. *)
Theorem sweep_shape_mismatch_raises (st : state) q c qi (k n T : Z) ec sv :
  sweep_inputs st q c qi k n T →
  (0 < T)%Z → (0 ≤ n)%Z →
  evolve q c 0 "circuit" k "trotter" = Returned ec →
  statevector_of qi ec = Returned sv →
  length sv ≠ Z.to_nat (2 * n) → length sv ≠ 1%nat →
  (cell_sweep st).1 = Raised (ValueError "could not broadcast input array") ∧
  globals (cell_sweep st).2 !! "statevector_of_t" =
    Some (VArray2 {| ncols := Z.to_nat (2 * n);
                     rows := replicate (Z.to_nat T) (replicate (Z.to_nat (2 * n)) fzero) |}) ∧
  trace (cell_sweep st).2 = (trace st ++ sweep_calls 0)%list.
Proof.
  intros (Hnp & HT & Hn & Hq & Hc & Hk & Hqi) HTpos Hnn Hev Hsv Hlen Hone.
  destruct st as [g tr]. unfold bound in *. cbn [globals trace] in *.
  unfold statevector_of in Hsv.
  change (wp cell_sweep
            (λ o st',
               o = Raised (ValueError "could not broadcast input array") ∧
               globals st' !! "statevector_of_t" =
                 Some (VArray2 {| ncols := Z.to_nat (2 * n);
                                  rows := replicate (Z.to_nat T)
                                            (replicate (Z.to_nat (2 * n)) fzero) |}) ∧
               trace st' = (tr ++ sweep_calls 0)%list)
            (State g tr)).
  repeat (first [enter_loop | step];
          repeat match goal with
          | H : np_zeros _ _ = _ |- _ =>
              rewrite np_zeros_shape in H by lia;
              first [discriminate H | injection H as <-]
          | H : set_row _ _ _ = _ |- _ =>
              rewrite set_row_shape_error in H
                by (simpl; rewrite ?length_replicate; lia || done);
              first [discriminate H | injection H as <-]
          | H' : ?r = Returned _, H : ?r = Returned _ |- _ =>
              rewrite H' in H; injection H as <-
          | H' : ?r = Returned _, H : ?r = Raised _ |- _ =>
              rewrite H' in H; discriminate H
          | H' : match ?r with Returned _ => _ | Raised _ => _ end = _, H : ?r = _ |- _ =>
              rewrite H in H'; try discriminate H'
          end).
  cbn [globals trace]. split; [done|]. split; [lookup_ex|].
  unfold sweep_calls. by rewrite <- !app_assoc.
Qed.

End SweepInFull.

(** ** Runs that end early, and what the solver gets *)
Section RunsInFull.
Context {C : Carrier} {fw : Framework C}.

Lemma run_cells_failed_index i cells st j e st' :
  run_cells i cells st = (Failed j e, st') → (i ≤ j)%nat.
Proof.
  revert i st. induction cells as [|c cells IH]; intros i st; simpl; [done|].
  destruct (c st) as [[a|e0] st0].
  - intros H. apply IH in H. lia.
  - intros [= <- _ _]. lia.
Qed.

Lemma added_forallb φ ψ tr st :
  (∀ ev, φ ev = true → ψ ev = true) →
  forallb ψ tr = true → added φ tr st → forallb ψ (trace st) = true.
Proof.
  intros Hφ Htr (l & -> & Hl). rewrite forallb_app, Htr. simpl.
  induction l as [|ev l IH]; [done|]. simpl in *.
  apply andb_true_iff in Hl as [Hev Hl]. by rewrite (Hφ ev Hev), IH.
Qed.

Lemma quiet_not_remote ev : quiet ev = true → negb (is_remote ev) = true.
Proof. by destruct ev as [| | |[]]. Qed.

(** X6. With [qasm = False] a run makes no call to the IBMQ account or to
    its devices. *)
Theorem exact_run_is_local (cfg : config) :
  cfg_qasm cfg = false →
  forallb (λ ev, negb (is_remote ev)) (trace (run_all cfg).2) = true.
Proof.
  rewrite (run_all_split (S at_run) cfg) by (vm_compute; lia).
  pose proof (run_from_after_run cfg) as Hrest.
  set (rest_of_run := run_from (S at_run) cfg) in *. clearbody rest_of_run.
  destruct cfg as [a b mt q]; cbn [cfg_qasm]. intros ->.
  list_cells.
  repeat step.
  all: cbv beta iota.
  all: lazymatch goal with
       | Hr : ∀ o tr st, _ → after_run o tr (?f st).2
         |- context [?f (State ?g ?tr)] =>
           destruct (Hr (g !! "results") tr (State g tr)) as [_ Hadded];
             [split; [reflexivity | apply added_refl]|];
           apply (added_forallb quiet _ tr _ quiet_not_remote); [|exact Hadded];
           vm_compute; reflexivity
       | _ => cbn [snd trace]; vm_compute; reflexivity
       end.
Qed.

(** X7. When the driver raises, the run ends in the driver cell with that
    error, after the one call and with [molecule] unbound. *)
Theorem driver_error_ends_run (cfg : config) (e : pyerr) :
  driver_run (driver_of cfg) = Raised e →
  (run_all cfg).1 = Failed 1 e ∧
  trace (run_all cfg).2 = [Call CDriverRun] ∧
  globals (run_all cfg).2 !! "molecule" = None.
Proof.
  unfold driver_of. destruct cfg as [a b mt q]. intros He.
  list_cells.
  repeat (step;
          try match goal with
          | H : driver_run _ = Returned _ |- _ => rewrite He in H; discriminate H
          | H : driver_run _ = Raised _ |- _ => rewrite He in H; injection H as <-
          end).
  cbn [fst snd globals trace]. split; [done|]. split; [done|]. lookup_tac.
Qed.

(** X8. When the mapping raises, the run ends in the operator cell with
    that error: [qubit_reduction] is set already, [qubitOp] is unbound, and
    no reduction has been attempted. *)
Theorem mapping_error_ends_run (cfg : config) (m : QMolecule) (e : pyerr) :
  driver_run (driver_of cfg) = Returned m →
  mapping {| h1 := one_body_integrals m; h2 := two_body_integrals m |}
          (cfg_map_type cfg) (float_lit 1 (-8)) = Raised e →
  (run_all cfg).1 = Failed at_qubit_hamiltonian e ∧
  globals (run_all cfg).2 !! "qubit_reduction" =
    Some (VBool (qubit_reduction (VStr (cfg_map_type cfg)))) ∧
  globals (run_all cfg).2 !! "qubitOp" = None ∧
  existsb is_two_qubit_reduced (trace (run_all cfg).2) = false.
Proof.
  unfold driver_of. destruct cfg as [a b mt q]. intros Hd Hm.
  list_cells.
  repeat (step;
          try match goal with
          | H : driver_run _ = Returned _ |- _ => rewrite Hd in H; injection H as <-
          | H : driver_run _ = Raised _ |- _ => rewrite Hd in H; discriminate H
          | H : mapping _ _ _ = Returned _ |- _ => rewrite Hm in H; discriminate H
          | H : mapping _ _ _ = Raised _ |- _ => rewrite Hm in H; injection H as <-
          end).
  cbn [fst snd globals trace]. split; [done|]. split; [lookup_ex|].
  split; [lookup_tac|]. vm_compute; reflexivity.
Qed.

(** X10. The Hartree-Fock state and the UCCSD form are built with the number
    of spin orbitals, the particle count, the mapping and the reduction flag
    that built the operator; the reduction, when applied, got that particle
    count. *)
Theorem reference_state_and_ansatz_match_operator (cfg : config) (st : state) :
  run_upto (S at_var_form) cfg = (Finished, st) →
  ∃ m hf vf,
    globals st !! "molecule" = Some (VMolecule m) ∧
    globals st !! "HF_state" = Some (VHartreeFock hf) ∧
    globals st !! "var_form" = Some (VUCCSD vf) ∧
    hf_num_orbitals hf = num_orbitals m * 2 ∧
    hf_num_particles hf = num_alpha m + num_beta m ∧
    hf_qubit_mapping hf = cfg_map_type cfg ∧
    hf_two_qubit_reduction hf = qubit_reduction (VStr (cfg_map_type cfg)) ∧
    vf_num_orbitals vf = hf_num_orbitals hf ∧
    vf_num_particles vf = hf_num_particles hf ∧
    vf_qubit_mapping vf = hf_qubit_mapping hf ∧
    vf_two_qubit_reduction vf = hf_two_qubit_reduction hf ∧
    vf_depth vf = 1 ∧
    List.filter is_two_qubit_reduced (trace st) =
      if hf_two_qubit_reduction hf
      then [Call (CTwoQubitReduced (hf_num_particles hf))] else [].
Proof.
  destruct cfg as [a b mt q].
  list_cells.
  repeat step.
  all: finished.
  all: cbn [globals trace].
  all: eexists _, _, _.
  all: split; [lookup_ex|].
  all: split; [lookup_ex|].
  all: split; [lookup_ex|].
  all: cbn [hf_num_orbitals hf_num_particles hf_qubit_mapping hf_two_qubit_reduction
            vf_num_orbitals vf_num_particles vf_qubit_mapping vf_two_qubit_reduction
            vf_depth cfg_map_type] in *.
  all: repeat (split; [first [reflexivity | congruence]|]).
  all: vm_compute; reflexivity.
Qed.

(** X11. A run gets through the cell that sets up VQE only with
    [qasm = False], and then the solver is set up on the operator and the
    form that are bound, with COBYLA limited to 200 evaluations, and the
    quantum instance is the plain statevector simulator. *)
Theorem solver_inputs (cfg : config) (st : state) :
  run_upto (S at_VQE) cfg = (Finished, st) →
  cfg_qasm cfg = false ∧
  ∃ q vf b,
    globals st !! "qubitOp" = Some (VOperator q) ∧
    globals st !! "var_form" = Some (VUCCSD vf) ∧
    globals st !! "vqe" =
      Some (VVQE {| vqe_operator := q; vqe_var_form := vf;
                    vqe_optimizer := COBYLA 200 |}) ∧
    aer_get_backend "statevector_simulator" = Returned b ∧
    globals st !! "quantum_instance" =
      Some (VQuantumInstance
              {| qi_backend := b; qi_shots := None; qi_basis_gates := None;
                 qi_coupling_map := None; qi_initial_layout := None;
                 qi_noise_model := None |}) ∧
    globals st !! "sv_mode" = Some (VBool true) ∧
    globals st !! "num_qubits" = Some (VInt (num_qubits q)).
Proof.
  destruct cfg as [a b mt q].
  list_cells.
  repeat step.
  all: finished.
  all: cbn [globals trace cfg_qasm] in *.
  all: split; [done|].
  all: eexists _, _, _.
  all: split; [lookup_ex|].
  all: split; [lookup_ex|].
  all: split; [lookup_ex|].
  all: split; [eassumption|].
  all: split; [lookup_ex|].
  all: split; lookup_ex.
Qed.

End RunsInFull.

Section SolverCell.
Context {C : Carrier} {fw : Framework C}.

(** X9. A run that fails in the solver cell has called [vqe.run], once and
    as the last thing it did, on the [vqe] and the [quantum_instance] that
    are bound, and has reported nothing.  Either that call raised, the
    error of the run is its error and [results] is unbound; or it returned,
    [results] is what it returned, its [eigvals] is empty and the error is
    the [IndexError] of [eigvals[0]]. *)
Theorem solver_cell_failures (cfg : config) (e : pyerr) :
  (run_all cfg).1 = Failed at_run e →
  existsb is_solver_report (trace (run_all cfg).2) = false ∧
  ∃ a qi before,
    globals (run_all cfg).2 !! "vqe" = Some (VVQE a) ∧
    globals (run_all cfg).2 !! "quantum_instance" = Some (VQuantumInstance qi) ∧
    trace (run_all cfg).2 = (before ++ [Call CVqeRun])%list ∧
    forallb (λ ev, negb (is_vqe_run ev)) before = true ∧
    ((vqe_run a qi = Raised e ∧ globals (run_all cfg).2 !! "results" = None) ∨
     ∃ r, vqe_run a qi = Returned r ∧
          globals (run_all cfg).2 !! "results" = Some (VResults r) ∧
          eigvals r = [] ∧ e = IndexError "eigvals").
Proof.
  rewrite (run_all_split (S at_run) cfg) by (vm_compute; lia).
  pose proof (λ st j e' st', run_cells_failed_index (S at_run)
                 (drop (S at_run) (notebook cfg)) st j e' st') as Hidx.
  change (run_cells (S at_run) (drop (S at_run) (notebook cfg)))
    with (run_from (S at_run) cfg) in Hidx.
  set (rest_of_run := run_from (S at_run) cfg) in *. clearbody rest_of_run.
  destruct cfg as [a b mt q].
  list_cells.
  repeat step.
  all: cbv beta iota.
  all: lazymatch goal with
       | |- (Failed ?k _, _).1 = _ → _ =>
           cbn [fst snd]; intros Hk;
           first [discriminate Hk | injection Hk as <-]
       | Hi : ∀ st j e' st', ?f st = _ → _ |- context [?f ?s] =>
           destruct (f s) as [[|j e'] st'] eqn:E; cbn [fst];
           [discriminate | intros Hk; injection Hk as Hj _; apply Hi in E; subst j; vm_compute in E; lia]
       end.
  all: try (exfalso; congruence).
  all: cbn [globals trace].
  all: (split; [vm_compute; reflexivity|]).
  all: eexists _, _, _.
  all: split; [lookup_ex|].
  all: split; [lookup_ex|].
  all: split; [reflexivity|].
  all: split; [vm_compute; reflexivity|].
  all: first [left; split; [eassumption | lookup_tac]
             | right; eexists; split; [eassumption|]; split; [lookup_ex|];
               split; [eassumption|reflexivity]].
Qed.
End SolverCell.

(** ** The same on the stand-in framework *)
Section MoreOnStub.
#[local] Existing Instances Stub.carrier Stub.framework.

Lemma stub_sweep_inputs :
  sweep_inputs Stub.before_sweep 2 (2, 0) Stub.statevector_instance 10 2 100.
Proof. repeat split; vm_compute; reflexivity. Qed.

Lemma stub_sweep_returns : (cell_sweep Stub.before_sweep).1 = Returned tt.
Proof. vm_compute; reflexivity. Qed.

Lemma sweep_records_every_time_witness :
  sweep_inputs Stub.before_sweep 2 (2, 0) Stub.statevector_instance 10 2 100 ∧
  (cell_sweep Stub.before_sweep).1 = Returned tt ∧
  ∃ a,
    globals (cell_sweep Stub.before_sweep).2 !! "statevector_of_t" = Some (VArray2 a) ∧
    length (rows a) = Z.to_nat 100 ∧
    ncols a = Z.to_nat (2 * 2) ∧
    ∀ t, (0 ≤ t < 100)%Z → recorded 2 (2, 0) Stub.statevector_instance 10 a t.
Proof.
  split; [exact stub_sweep_inputs|]. split; [exact stub_sweep_returns|].
  apply (sweep_records_every_time Stub.before_sweep 2 (2, 0)
           Stub.statevector_instance 10 2 100).
  - exact stub_sweep_inputs.
  - exact stub_sweep_returns.
Defined.

Lemma sweep_evolves_each_time_in_order_witness :
  sweep_inputs Stub.before_sweep 2 (2, 0) Stub.statevector_instance 10 2 100 ∧
  (cell_sweep Stub.before_sweep).1 = Returned tt ∧
  ∃ l, trace (cell_sweep Stub.before_sweep).2 = (trace Stub.before_sweep ++ l)%list ∧
       List.filter is_evolve l = map (λ t, Call (CEvolve t)) (seqZ 0 100).
Proof.
  split; [exact stub_sweep_inputs|]. split; [exact stub_sweep_returns|].
  apply (sweep_evolves_each_time_in_order Stub.before_sweep 2 (2, 0)
           Stub.statevector_instance 10 2 100).
  - exact stub_sweep_inputs.
  - exact stub_sweep_returns.
Defined.

Lemma sweep_returns_only_with_four_columns_witness :
  sweep_inputs Stub.before_sweep 2 (2, 0) Stub.statevector_instance 10 2 100 ∧
  (cell_sweep Stub.before_sweep).1 = Returned tt ∧
  (2 ≤ 2)%Z.
Proof.
  split; [exact stub_sweep_inputs|]. split; [exact stub_sweep_returns|].
  apply (sweep_returns_only_with_four_columns Stub.before_sweep 2 (2, 0)
           Stub.statevector_instance 10 2 100).
  - exact stub_sweep_inputs.
  - exact stub_sweep_returns.
Defined.

Lemma figures_show_stored_rows_witness :
  sweep_inputs Stub.before_sweep 2 (2, 0) Stub.statevector_instance 10 2 100 ∧
  (cell_sweep Stub.before_sweep).1 = Returned tt ∧
  ∃ a before,
    globals (cell_sweep Stub.before_sweep).2 !! "statevector_of_t" = Some (VArray2 a) ∧
    trace (cell_sweep Stub.before_sweep).2 =
      (before ++
       [Figure 1 (first_four_columns a); Display "plt.show";
        Figure 2 (map (map fabs) (first_four_columns a)); Display "plt.show"])%list.
Proof.
  split; [exact stub_sweep_inputs|]. split; [exact stub_sweep_returns|].
  apply (figures_show_stored_rows Stub.before_sweep 2 (2, 0)
           Stub.statevector_instance 10 2 100).
  - exact stub_sweep_inputs.
  - exact stub_sweep_returns.
Defined.

Lemma sweep_shape_mismatch_raises_witness :
  sweep_inputs Stub.before_sweep_jordan_wigner 4 (4, 0) Stub.statevector_instance 10 4 100 ∧
  (0 < 100)%Z ∧ (0 ≤ 4)%Z ∧
  evolve 4 (4, 0) 0 "circuit" 10 "trotter" = Returned (4, 0) ∧
  statevector_of Stub.statevector_instance (4, 0) = Returned (Stub.amplitudes (4, 0)) ∧
  length (Stub.amplitudes (4, 0)) ≠ Z.to_nat (2 * 4) ∧
  length (Stub.amplitudes (4, 0)) ≠ 1%nat ∧
  (cell_sweep Stub.before_sweep_jordan_wigner).1 =
    Raised (ValueError "could not broadcast input array") ∧
  globals (cell_sweep Stub.before_sweep_jordan_wigner).2 !! "statevector_of_t" =
    Some (VArray2 {| ncols := Z.to_nat (2 * 4);
                     rows := replicate (Z.to_nat 100) (replicate (Z.to_nat (2 * 4)) fzero) |}) ∧
  trace (cell_sweep Stub.before_sweep_jordan_wigner).2 =
    (trace Stub.before_sweep_jordan_wigner ++ sweep_calls 0)%list.
Proof.
  assert (sweep_inputs Stub.before_sweep_jordan_wigner 4 (4, 0)
            Stub.statevector_instance 10 4 100) as Hin
    by (repeat split; vm_compute; reflexivity).
  assert (length (Stub.amplitudes (4, 0)) ≠ Z.to_nat (2 * 4)) as Hlen
    by (vm_compute; discriminate).
  assert (length (Stub.amplitudes (4, 0)) ≠ 1%nat) as Hone
    by (vm_compute; discriminate).
  refine (conj Hin (conj _ (conj _ (conj _ (conj _ (conj Hlen (conj Hone _))))))).
  1-4: first [lia | vm_compute; reflexivity].
  apply (sweep_shape_mismatch_raises Stub.before_sweep_jordan_wigner 4 (4, 0)
           Stub.statevector_instance 10 4 100 (4, 0) (Stub.amplitudes (4, 0)) Hin);
    first [exact Hlen | exact Hone | lia | vm_compute; reflexivity].
Defined.

Lemma exact_run_is_local_witness :
  cfg_qasm Stub.exact = false ∧
  forallb (λ ev, negb (is_remote ev)) (trace (run_all Stub.exact).2) = true.
Proof.
  split; [reflexivity|].
  apply (exact_run_is_local Stub.exact). reflexivity.
Defined.

Lemma mapping_error_ends_run_witness :
  driver_run (driver_of Stub.unknown_mapping) =
    Returned Stub.h2_molecule ∧
  mapping {| h1 := one_body_integrals Stub.h2_molecule;
             h2 := two_body_integrals Stub.h2_molecule |}
          (cfg_map_type Stub.unknown_mapping) (float_lit 1 (-8))
    = Raised (FrameworkError "mapping") ∧
  (run_all Stub.unknown_mapping).1 =
    Failed at_qubit_hamiltonian (FrameworkError "mapping") ∧
  globals (run_all Stub.unknown_mapping).2 !! "qubit_reduction" =
    Some (VBool (qubit_reduction (VStr (cfg_map_type Stub.unknown_mapping)))) ∧
  globals (run_all Stub.unknown_mapping).2 !! "qubitOp" = None ∧
  existsb is_two_qubit_reduced (trace (run_all Stub.unknown_mapping).2) = false.
Proof.
  split; [reflexivity|]. split; [vm_compute; reflexivity|].
  apply (mapping_error_ends_run Stub.unknown_mapping
           Stub.h2_molecule
           (FrameworkError "mapping")).
  - reflexivity.
  - vm_compute; reflexivity.
Defined.

Lemma reference_state_and_ansatz_match_operator_witness :
  run_upto (S at_var_form) hardcoded =
    (Finished, (run_upto (S at_var_form) hardcoded).2) ∧
  ∃ m hf vf,
    globals (run_upto (S at_var_form) hardcoded).2 !! "molecule" = Some (VMolecule m) ∧
    globals (run_upto (S at_var_form) hardcoded).2 !! "HF_state" = Some (VHartreeFock hf) ∧
    globals (run_upto (S at_var_form) hardcoded).2 !! "var_form" = Some (VUCCSD vf) ∧
    hf_num_orbitals hf = num_orbitals m * 2 ∧
    hf_num_particles hf = num_alpha m + num_beta m ∧
    hf_qubit_mapping hf = cfg_map_type hardcoded ∧
    hf_two_qubit_reduction hf = qubit_reduction (VStr (cfg_map_type hardcoded)) ∧
    vf_num_orbitals vf = hf_num_orbitals hf ∧
    vf_num_particles vf = hf_num_particles hf ∧
    vf_qubit_mapping vf = hf_qubit_mapping hf ∧
    vf_two_qubit_reduction vf = hf_two_qubit_reduction hf ∧
    vf_depth vf = 1 ∧
    List.filter is_two_qubit_reduced (trace (run_upto (S at_var_form) hardcoded).2) =
      if hf_two_qubit_reduction hf
      then [Call (CTwoQubitReduced (hf_num_particles hf))] else [].
Proof.
  split; [vm_compute; reflexivity|].
  apply (reference_state_and_ansatz_match_operator hardcoded).
  vm_compute; reflexivity.
Defined.

Lemma solver_inputs_witness :
  run_upto (S at_VQE) Stub.exact = (Finished, (run_upto (S at_VQE) Stub.exact).2) ∧
  cfg_qasm Stub.exact = false ∧
  ∃ q vf b,
    globals (run_upto (S at_VQE) Stub.exact).2 !! "qubitOp" = Some (VOperator q) ∧
    globals (run_upto (S at_VQE) Stub.exact).2 !! "var_form" = Some (VUCCSD vf) ∧
    globals (run_upto (S at_VQE) Stub.exact).2 !! "vqe" =
      Some (VVQE {| vqe_operator := q; vqe_var_form := vf;
                    vqe_optimizer := COBYLA 200 |}) ∧
    aer_get_backend "statevector_simulator" = Returned b ∧
    globals (run_upto (S at_VQE) Stub.exact).2 !! "quantum_instance" =
      Some (VQuantumInstance
              {| qi_backend := b; qi_shots := None; qi_basis_gates := None;
                 qi_coupling_map := None; qi_initial_layout := None;
                 qi_noise_model := None |}) ∧
    globals (run_upto (S at_VQE) Stub.exact).2 !! "sv_mode" = Some (VBool true) ∧
    globals (run_upto (S at_VQE) Stub.exact).2 !! "num_qubits" = Some (VInt (num_qubits q)).
Proof.
  split; [vm_compute; reflexivity|].
  apply (solver_inputs Stub.exact).
  vm_compute; reflexivity.
Defined.

End MoreOnStub.

Section FailuresOnStub.
#[local] Existing Instance Stub.carrier.

Lemma driver_error_ends_run_witness :
  driver_run (Framework := Stub.no_driver) (driver_of hardcoded) =
    Raised (FrameworkError "PySCF") ∧
  (run_all (fw := Stub.no_driver) hardcoded).1 = Failed 1 (FrameworkError "PySCF") ∧
  trace (run_all (fw := Stub.no_driver) hardcoded).2 = [Call CDriverRun] ∧
  globals (run_all (fw := Stub.no_driver) hardcoded).2 !! "molecule" = None.
Proof.
  split; [reflexivity|].
  apply (driver_error_ends_run (fw := Stub.no_driver) hardcoded). reflexivity.
Defined.

(** Both ways of failing: a solver that raises, and a solver that returns no
    eigenvalue. *)
Lemma solver_cell_failures_witness :
  ((run_all (fw := Stub.failing_solver) Stub.exact).1
     = Failed at_run (FrameworkError "vqe.run") ∧
   existsb is_solver_report (trace (run_all (fw := Stub.failing_solver) Stub.exact).2)
     = false ∧
   ∃ a qi before,
     globals (run_all (fw := Stub.failing_solver) Stub.exact).2 !! "vqe"
       = Some (VVQE a) ∧
     globals (run_all (fw := Stub.failing_solver) Stub.exact).2 !! "quantum_instance"
       = Some (VQuantumInstance qi) ∧
     trace (run_all (fw := Stub.failing_solver) Stub.exact).2
       = (before ++ [Call CVqeRun])%list ∧
     forallb (λ ev, negb (is_vqe_run ev)) before = true ∧
     ((vqe_run (Framework := Stub.failing_solver) a qi
         = Raised (FrameworkError "vqe.run") ∧
       globals (run_all (fw := Stub.failing_solver) Stub.exact).2 !! "results" = None) ∨
      ∃ r, vqe_run (Framework := Stub.failing_solver) a qi = Returned r ∧
           globals (run_all (fw := Stub.failing_solver) Stub.exact).2 !! "results"
             = Some (VResults r) ∧
           eigvals r = [] ∧ FrameworkError "vqe.run" = IndexError "eigvals")) ∧
  ((run_all (fw := Stub.empty_eigvals) Stub.exact).1
     = Failed at_run (IndexError "eigvals") ∧
   existsb is_solver_report (trace (run_all (fw := Stub.empty_eigvals) Stub.exact).2)
     = false ∧
   ∃ a qi before,
     globals (run_all (fw := Stub.empty_eigvals) Stub.exact).2 !! "vqe"
       = Some (VVQE a) ∧
     globals (run_all (fw := Stub.empty_eigvals) Stub.exact).2 !! "quantum_instance"
       = Some (VQuantumInstance qi) ∧
     trace (run_all (fw := Stub.empty_eigvals) Stub.exact).2
       = (before ++ [Call CVqeRun])%list ∧
     forallb (λ ev, negb (is_vqe_run ev)) before = true ∧
     ((vqe_run (Framework := Stub.empty_eigvals) a qi = Raised (IndexError "eigvals") ∧
       globals (run_all (fw := Stub.empty_eigvals) Stub.exact).2 !! "results" = None) ∨
      ∃ r, vqe_run (Framework := Stub.empty_eigvals) a qi = Returned r ∧
           globals (run_all (fw := Stub.empty_eigvals) Stub.exact).2 !! "results"
             = Some (VResults r) ∧
           eigvals r = [] ∧ IndexError "eigvals" = IndexError "eigvals")).
Proof.
  split.
  - split; [vm_compute; reflexivity|].
    apply (solver_cell_failures (fw := Stub.failing_solver) Stub.exact).
    vm_compute; reflexivity.
  - split; [vm_compute; reflexivity|].
    apply (solver_cell_failures (fw := Stub.empty_eigvals) Stub.exact).
    vm_compute; reflexivity.
Defined.

End FailuresOnStub.
